(** * RemoDesk: the remote-desktop extension of PyserSSH

    A shallow embedding of [src/PyserSSH/extensions/remodesk.py]: the
    [Protocol] class (viewer registry, broadcaster fan-out, per-viewer
    command loop, [_receive_exact]) and its [RemoDesk] subclass (activity
    detection, encoding, coordinate translation, quality mapping, the
    capture loop and command dispatch).

    Python integers are [Z]; byte strings are [list byte]; Python floats are
    IEEE-754 binary64 values computed with the specification floats of the
    standard library; an exception is an explicit [Raise] in the [result]
    type.  The libraries the module calls (cv2, numpy, brotli, pickle, mouse,
    keyboard, PIL) are interfaces taken as parameters. *)

From Stdlib Require Import ZArith List Lia Bool String Permutation.
From Stdlib Require Import Floats.SpecFloat.
From coqutil Require Import Byte.
Import ListNotations.

Local Open Scope Z_scope.

(** ** The Python runtime fragments the module relies on *)

Module Py.

(** The exception classes that occur.  In Python 3 [socket.error] is an
    alias of [OSError], so one constructor stands for both. *)
Inductive pyexn : Type :=
| OSError
| TypeError
| ValueError
| KeyError
| IndexError
| ZeroDivisionError
| OverflowError
| StructError
| UnpicklingError
| Cv2Error
| BrotliError.

Definition pyexn_eqb (a b : pyexn) : bool :=
  match a, b with
  | OSError, OSError | TypeError, TypeError | ValueError, ValueError
  | KeyError, KeyError | IndexError, IndexError
  | ZeroDivisionError, ZeroDivisionError | OverflowError, OverflowError
  | StructError, StructError | UnpicklingError, UnpicklingError
  | Cv2Error, Cv2Error | BrotliError, BrotliError => true
  | _, _ => false
  end.

(** [except socket.error] catches exactly the [OSError] family. *)
Definition is_socket_error (e : pyexn) : bool := pyexn_eqb e OSError.

Inductive result (A : Type) : Type :=
| Ok (a : A)
| Raise (e : pyexn).
Arguments Ok {A} a.
Arguments Raise {A} e.

Definition bind {A B : Type} (r : result A) (k : A -> result B) : result B :=
  match r with
  | Ok a => k a
  | Raise e => Raise e
  end.

Definition bytes := list byte.

(** [len(b)] *)
Definition len {A : Type} (l : list A) : Z := Z.of_nat (List.length l).

(** [t[i]] on a tuple, for a literal index [i >= 0]. *)
Definition getitem (t : list Z) (i : nat) : result Z :=
  match nth_error t i with
  | Some v => Ok v
  | None => Raise IndexError
  end.

End Py.
Export Py.

Declare Scope py_scope.
Delimit Scope py_scope with py.
Notation "x <- c ;; k" := (bind c (fun x => k))
  (at level 61, c at next level, right associativity) : py_scope.
Notation "' p <- c ;; k" := (bind c (fun x => match x with p => k end))
  (at level 61, p pattern, c at next level, right associativity) : py_scope.
Local Open Scope py_scope.

(** ** Sockets

    The transport hands over the peer's bytes in chunks of its own choosing.
    A pending [Chunk] is data that has arrived; [recv k] returns at most [k]
    bytes of the first chunk and leaves the rest pending.  An exhausted
    stream, or an empty chunk, is the orderly shutdown of the peer: [recv]
    returns [b'']. [SockError] is a transport failure: [recv] raises
    [socket.error]. *)

Module Socket.

Inductive event : Type :=
| Chunk (bs : bytes)
| SockError.

Definition t := list event.

Definition recv (k : Z) (s : t) : result bytes * t :=
  match s with
  | [] => (Ok [], [])
  | SockError :: s' => (Raise OSError, s')
  | Chunk bs :: s' =>
      if len bs <=? k then (Ok bs, s')
      else (Ok (firstn (Z.to_nat k) bs), Chunk (skipn (Z.to_nat k) bs) :: s')
  end.

(** No transport failure is pending. *)
Fixpoint error_free (s : t) : bool :=
  match s with
  | [] => true
  | SockError :: _ => false
  | Chunk _ :: s' => error_free s'
  end.

(** The bytes that arrive before the peer closes (or the transport
    fails). *)
Fixpoint incoming (s : t) : bytes :=
  match s with
  | Chunk (b :: bs) :: s' => (b :: bs) ++ incoming s'
  | _ => []
  end.

End Socket.

(** ** [Protocol._receive_exact] *)

Module ReceiveExact.
Import Socket.

(** The [while len(data) < n] loop.  Every turn that does not leave the
    function appends a non-empty packet, so [n - len(data)] turns are
    enough; [None] is "out of fuel" and is shown below never to occur. *)
Fixpoint receive_loop (fuel : nat) (n : Z) (data : bytes) (s : Socket.t)
  : option (result (option bytes) * Socket.t) :=
  if len data <? n then
    match fuel with
    | O => None
    | S fuel' =>
        match recv (n - len data) s with
        | (Raise e, s') => Some (Raise e, s')
        | (Ok [], s') => Some (Ok None, s')
        | (Ok packet, s') => receive_loop fuel' n (data ++ packet) s'
        end
    end
  else Some (Ok (Some data), s).

Definition _receive_exact (s : Socket.t) (n : Z)
  : option (result (option bytes) * Socket.t) :=
  receive_loop (Z.to_nat n) n [] s.

End ReceiveExact.

(** ** Python floats and the arithmetic the module performs on them

    A Python [float] is an IEEE-754 binary64 number; the operations are the
    correctly rounded ones of the specification floats, at precision 53 and
    maximal exponent 1024. *)

Module PyFloat.

Definition prec : Z := 53.
Definition emax : Z := 1024.

Definition float := spec_float.

Definition is_finite (f : float) : bool :=
  match f with
  | S754_zero _ | S754_finite _ _ _ => true
  | S754_infinity _ | S754_nan => false
  end.

(** The implicit [int -> float] conversion of a mixed operation: round to
    nearest, ties to even; an integer too large for a float raises
    [OverflowError]. *)
Definition of_int (z : Z) : result float :=
  let f := binary_normalize prec emax z 0 false in
  if is_finite f then Ok f else Raise OverflowError.

(** [a / b] on two integers: the correctly rounded quotient. *)
Definition truediv (a b : Z) : result float :=
  if b =? 0 then Raise ZeroDivisionError
  else if a =? 0 then Ok (S754_zero (b <? 0))
  else
    let '(m, e, l) := SFdiv_core_binary prec emax (Z.abs a) 0 (Z.abs b) 0 in
    let f := binary_round_aux prec emax (xorb (a <? 0) (b <? 0)) m e l in
    if is_finite f then Ok f else Raise OverflowError.

Definition mul (f g : float) : float := SFmul prec emax f g.
Definition add (f g : float) : float := SFadd prec emax f g.

(** [int(f)]: truncation toward zero. *)
Definition to_int (f : float) : result Z :=
  match f with
  | S754_nan => Raise ValueError
  | S754_infinity _ => Raise OverflowError
  | S754_zero _ => Ok 0
  | S754_finite s m e =>
      let a := match e with
               | Zneg p => Z.shiftr (Zpos m) (Zpos p)
               | _ => Z.shiftl (Zpos m) e
               end in
      Ok (if s then - a else a)
  end.

End PyFloat.

(** ** [struct.pack('!I', v)] and [struct.unpack('!I', b)] *)

Module Struct.

Definition pack_I (v : Z) : result bytes :=
  if (0 <=? v) && (v <? 2 ^ 32) then
    Ok [byte.of_Z (Z.shiftr v 24); byte.of_Z (Z.shiftr v 16);
        byte.of_Z (Z.shiftr v 8); byte.of_Z v]
  else Raise StructError.

Definition unpack_I (b : bytes) : result Z :=
  match b with
  | [b3; b2; b1; b0] =>
      Ok (byte.unsigned b3 * 2 ^ 24 + byte.unsigned b2 * 2 ^ 16
          + byte.unsigned b1 * 2 ^ 8 + byte.unsigned b0)
  | _ => Raise StructError
  end.

(** [struct.pack('!III', a, b, c)] *)
Definition pack_III (a b c : Z) : result bytes :=
  ha <- pack_I a ;; hb <- pack_I b ;; hc <- pack_I c ;;
  Ok (ha ++ hb ++ hc).

End Struct.

(** ** The Python values a pickled command can carry *)

#[local] Set Warnings "-register-all".
Inductive pyval : Type :=
| PyNone
| PyInt (z : Z)
| PyStr (s : string)
| PyDict (items : list (string * pyval)).

Module PyVal.

(** [if v:] *)
Definition truthy (v : pyval) : bool :=
  match v with
  | PyNone => false
  | PyInt z => negb (z =? 0)
  | PyStr s => negb (String.eqb s EmptyString)
  | PyDict items => match items with [] => false | _ => true end
  end.

Fixpoint lookup (k : string) (items : list (string * pyval)) : option pyval :=
  match items with
  | [] => None
  | (k', v) :: rest => if String.eqb k k' then Some v else lookup k rest
  end.

(** [v[k]] for a string key [k]. *)
Definition subscript (v : pyval) (k : string) : result pyval :=
  match v with
  | PyDict items =>
      match lookup k items with
      | Some x => Ok x
      | None => Raise KeyError
      end
  | _ => Raise TypeError
  end.

(** [v == "s"] *)
Definition eq_str (v : pyval) (s : string) : bool :=
  match v with
  | PyStr t => String.eqb t s
  | _ => false
  end.

(** [v == n] *)
Definition eq_int (v : pyval) (n : Z) : bool :=
  match v with
  | PyInt z => z =? n
  | _ => false
  end.

(** [v * f] for a float [f]: only a number multiplies. *)
Definition mul_float (v : pyval) (f : PyFloat.float) : result PyFloat.float :=
  match v with
  | PyInt z => fz <- PyFloat.of_int z ;; Ok (PyFloat.mul fz f)
  | _ => Raise TypeError
  end.

End PyVal.

(** ** The libraries [RemoDesk] calls

    [screen_image] is an ndarray or, after a failed capture, [b""]: both are
    values of the type [frame] of an instance.  Every call may raise. *)

Class Externals (frame : Type) : Type := {
(** the [b""] that [_capture_screen] returns on failure *)
empty_bytes : frame;
(** [cv2.absdiff(a, b)] *)
cv2_absdiff : frame -> frame -> result frame;
(** [cv2.cvtColor(a, cv2.COLOR_BGR2GRAY)] *)
cv2_cvtColor_BGR2GRAY : frame -> result frame;
(** [cv2.threshold(a, thresh, maxval, cv2.THRESH_BINARY)[1]] *)
cv2_threshold_BINARY : frame -> Z -> Z -> result frame;
(** [np.count_nonzero(a)] *)
np_count_nonzero : frame -> Z;
(** [cv2.resize(a, size, interpolation=cv2.INTER_NEAREST)] *)
cv2_resize_NEAREST : frame -> list Z -> result frame;
(** [cv2.imencode(ext, a, [flag, quality])], with [np.array(buffer).tobytes()]
    applied to the buffer *)
cv2_imencode : string -> frame -> Z -> result (bool * bytes);
(** [brotli.compress(data, quality=q, lgwin=w)] *)
brotli_compress : bytes -> Z -> Z -> result bytes
}.

(** ** The [RemoDesk] class *)

Module RemoDesk.
Section WithExternals.

Context {frame : Type} {ext : Externals frame}.

(** The attributes [__init__] sets.  [resolution] and [threshold] default
    to [None]; [screensize] starts as the empty tuple. *)
Record t : Type := {
  quality : Z;
  compression : Z;
  format : string;
  resolution : option (list Z);
  threshold : option Z;
  compress2 : bool;
  screensize : list Z;
  previous_frame : option frame
}.

Definition __init__ (quality compression : Z) (format : string)
    (resolution : option (list Z)) (activity_threshold : option Z)
    (second_compress : bool) : t :=
  {| quality := quality; compression := compression; format := format;
     resolution := resolution; threshold := activity_threshold;
     compress2 := second_compress; screensize := [];
     previous_frame := None |}.

Definition set_screensize (st : t) (sz : list Z) : t :=
  {| quality := quality st; compression := compression st;
     format := format st; resolution := resolution st;
     threshold := threshold st; compress2 := compress2 st;
     screensize := sz; previous_frame := previous_frame st |}.

Definition set_previous_frame (st : t) (f : frame) : t :=
  {| quality := quality st; compression := compression st;
     format := format st; resolution := resolution st;
     threshold := threshold st; compress2 := compress2 st;
     screensize := screensize st; previous_frame := Some f |}.

Definition set_resolution (st : t) (r : list Z) : t :=
  {| quality := quality st; compression := compression st;
     format := format st; resolution := Some r;
     threshold := threshold st; compress2 := compress2 st;
     screensize := screensize st; previous_frame := previous_frame st |}.

(** [if self.threshold:] *)
Definition threshold_truthy (st : t) : option Z :=
  match threshold st with
  | Some T => if T =? 0 then None else Some T
  | None => None
  end.

(** [if self.resolution:] *)
Definition resolution_truthy (st : t) : option (list Z) :=
  match resolution st with
  | Some (w :: r) => Some (w :: r)
  | _ => None
  end.

(** What [ImageGrab.grab()] and the conversion to BGR give in one call of
    [_capture_screen]: the picture and its size; an exception in the grab
    itself; or an exception in the conversion, after [self.screensize] has
    been set. *)
Inductive grab : Type :=
| Grabbed (img : frame) (size : list Z)
| GrabFailed
| ConversionFailed (size : list Z).

Definition _capture_screen (st : t) (g : grab) : frame * t :=
  match g with
  | Grabbed img size => (img, set_screensize st size)
  | GrabFailed => (empty_bytes, st)
  | ConversionFailed size => (empty_bytes, set_screensize st size)
  end.

(** The number of non-zero pixels of the thresholded difference mask. *)
Definition diff_count (current previous : frame) (T : Z) : result Z :=
  diff <- cv2_absdiff current previous ;;
  gray_diff <- cv2_cvtColor_BGR2GRAY diff ;;
  thresh <- cv2_threshold_BINARY gray_diff T 255 ;;
  Ok (np_count_nonzero thresh).

Definition _detect_activity (st : t) (current_frame : frame)
  : result bool * t :=
  match threshold_truthy st with
  | Some T =>
      match previous_frame st with
      | None => (Ok false, set_previous_frame st current_frame)
      | Some previous =>
          match diff_count current_frame previous T with
          | Raise e => (Raise e, st)
          | Ok non_zero_count =>
              (Ok (500 <? non_zero_count),
               set_previous_frame st current_frame)
          end
      end
  | None => (Ok true, st)
  end.

Definition _imagenc (st : t) (image : frame) : result bytes :=
  '(retval, buffer) <-
    (if String.eqb (format st) "webp" then
       cv2_imencode ".webp" image (quality st)
     else if String.eqb (format st) "jpeg" then
       cv2_imencode ".jpeg" image (quality st)
     else if String.eqb (format st) "avif" then
       cv2_imencode ".avif" image (quality st)
     else Raise TypeError) ;;
  if negb retval then Raise ValueError else Ok buffer.

(** [int(v * (num / den))] *)
Definition scaled (v : pyval) (num den : Z) : result Z :=
  s <- PyFloat.truediv num den ;;
  p <- PyVal.mul_float v s ;;
  PyFloat.to_int p.

Definition _translate_coordinates (st : t) (x y : pyval) : result (Z * Z) :=
  match resolution_truthy st with
  | Some res =>
      sw <- getitem (screensize st) 0 ;; rw <- getitem res 0 ;;
      translated_x <- scaled x sw rw ;;
      sh <- getitem (screensize st) 1 ;; rh <- getitem res 1 ;;
      translated_y <- scaled y sh rh ;;
      Ok (translated_x, translated_y)
  | None =>
      sw <- getitem (screensize st) 0 ;;
      translated_x <- scaled x sw 1920 ;;
      sh <- getitem (screensize st) 1 ;;
      translated_y <- scaled y sh 1090 ;;
      Ok (translated_x, translated_y)
  end.

Definition _convert_quality (quality : Z) : result (Z * Z) :=
  r <- PyFloat.truediv quality 100 ;;
  f11 <- PyFloat.of_int 11 ;;
  brotli_quality <- PyFloat.to_int (PyFloat.mul r f11) ;;
  r' <- PyFloat.truediv quality 100 ;;
  f14 <- PyFloat.of_int (24 - 10) ;;
  f10 <- PyFloat.of_int 10 ;;
  lgwin <- PyFloat.to_int (PyFloat.add f10 (PyFloat.mul r' f14)) ;;
  Ok (brotli_quality, lgwin).

(** [if self.resolution: screen_image = cv2.resize(...) else:
    self.resolution = self.screensize] *)
Definition fit_resolution (st : t) (screen_image : frame)
  : result (frame * t) :=
  match resolution_truthy st with
  | Some res =>
      resized <- cv2_resize_NEAREST screen_image res ;;
      Ok (resized, st)
  | None => Ok (screen_image, set_resolution st (screensize st))
  end.

(** From the encoded bytes to [data2send]: the optional second
    compression, then [struct.pack('!III', len(data), self.resolution[0],
    self.resolution[1]) + data]. *)
Definition wire_frame (st : t) (data : bytes) : result bytes :=
  data <-
    (if compress2 st then
       '(bquality, lgwin) <- _convert_quality (compression st) ;;
       brotli_compress data bquality lgwin
     else Ok data) ;;
  res <- match resolution st with
         | Some r => Ok r
         | None => Raise TypeError
         end ;;
  w <- getitem res 0 ;;
  h <- getitem res 1 ;;
  data_length <- Struct.pack_III (len data) w h ;;
  Ok (data_length ++ data).

(** One turn of the body of [while self.running] in [_capture]:
    [Ok (Some w)] when the wire frame [w] is put on the buffer, [Ok None]
    when the frame is skipped, [Raise e] when [e] leaves the body.  The
    body has no [try]. *)
Definition capture_body (st : t) (g : grab) : result (option bytes) * t :=
  let '(screen_image, st1) := _capture_screen st g in
  match _detect_activity st1 screen_image with
  | (Raise e, st2) => (Raise e, st2)
  | (Ok false, st2) => (Ok None, st2)
  | (Ok true, st2) =>
      match fit_resolution st2 screen_image with
      | Raise e => (Raise e, st2)
      | Ok (image, st3) =>
          (data <- _imagenc st3 image ;;
           data2send <- wire_frame st3 data ;;
           Ok (Some data2send),
           st3)
      end
  end.

(** What the loop head of [_capture] meets at each turn: [self.running]
    read as [False], or read as [True] together with what the screen grab
    of that turn gives. *)
Inductive turn : Type :=
| Idle
| Active (g : grab).

(** How a run of [_capture] over finitely many turns stands at its end. *)
Inductive capture_end : Type :=
| Returned               (* [self.running] was read as [False] *)
| Died (e : pyexn)       (* [e] left [_capture]: the thread is gone *)
| Looping.               (* the turns given are used up, the loop goes on *)

Fixpoint _capture (st : t) (turns : list turn)
  : list bytes * capture_end * t :=
  match turns with
  | [] => ([], Looping, st)
  | Idle :: _ => ([], Returned, st)
  | Active g :: rest =>
      match capture_body st g with
      | (Raise e, st') => ([], Died e, st')
      | (Ok None, st') => _capture st' rest
      | (Ok (Some data2send), st') =>
          let '(put, fin, st'') := _capture st' rest in
          (data2send :: put, fin, st'')
      end
  end.

(** The frames a run has put on the buffer, and how it stands. *)
Definition frames_put (r : list bytes * capture_end * t) : list bytes :=
  fst (fst r).
Definition end_of (r : list bytes * capture_end * t) : capture_end :=
  snd (fst r).

End WithExternals.

(** *** Command dispatch *)

Inductive button : Type := LEFT | MIDDLE | RIGHT.

(** The calls into the [mouse] and [keyboard] libraries. *)
Inductive injection : Type :=
| Mouse_move (x y : Z)
| Mouse_press (b : button)
| Mouse_release (b : button)
| Keyboard_press (key : pyval)
| Keyboard_release (key : pyval).

Section WithInjector.

Context {frame : Type}.

(** What a call into [mouse] or [keyboard] does: return, or raise. *)
Variable inject : injection -> result unit.

Definition perform (c : injection) : result (list injection) :=
  _ <- inject c ;; Ok [c].

(** [RemoDesk.handle_commands]; the result lists the injections done. *)
Definition handle_commands (st : @t frame) (command : pyval)
  : result (list injection) :=
  action <- PyVal.subscript command "action" ;;
  data <- PyVal.subscript command "data" ;;
  if PyVal.eq_str action "move_mouse" then
    x <- PyVal.subscript data "x" ;;
    y <- PyVal.subscript data "y" ;;
    '(rx, ry) <- _translate_coordinates st x y ;;
    perform (Mouse_move rx ry)
  else if PyVal.eq_str action "click_mouse" then
    button <- PyVal.subscript data "button" ;;
    state <- PyVal.subscript data "state" ;;
    if PyVal.eq_int button 1 then
      if PyVal.eq_str state "down" then perform (Mouse_press LEFT)
      else perform (Mouse_release LEFT)
    else if PyVal.eq_int button 2 then
      if PyVal.eq_str state "down" then perform (Mouse_press MIDDLE)
      else perform (Mouse_release MIDDLE)
    else if PyVal.eq_int button 3 then
      if PyVal.eq_str state "down" then perform (Mouse_press RIGHT)
      else perform (Mouse_release RIGHT)
    else Ok []
  else if PyVal.eq_str action "keyboard" then
    key <- PyVal.subscript data "key" ;;
    state <- PyVal.subscript data "state" ;;
    if PyVal.eq_str state "down" then perform (Keyboard_press key)
    else perform (Keyboard_release key)
  else Ok [].

End WithInjector.
End RemoDesk.

(** ** The [Protocol] class: viewer registry, broadcaster, command loop *)

Module Protocol.

(** An entry [[client, id, channel]] of [listclient].  Clients and
    channels are objects, compared by identity: a natural number names
    each. *)
Record viewer : Type := {
  v_client : nat;
  v_id : Z;
  v_channel : nat
}.

(** [a == b] on two entries *)
Definition viewer_eqb (a b : viewer) : bool :=
  Nat.eqb (v_client a) (v_client b) && (v_id a =? v_id b)
  && Nat.eqb (v_channel a) (v_channel b).

Record t : Type := {
  listclient : list viewer;
  first : bool;
  running : bool
}.

Definition __init__ : t :=
  {| listclient := []; first := true; running := false |}.

(** [l.remove(x)]: drops the first entry equal to [x]. *)
Fixpoint list_remove (x : viewer) (l : list viewer) : list viewer :=
  match l with
  | [] => []
  | y :: l' => if viewer_eqb y x then l' else y :: list_remove x l'
  end.

(** What one fan-out pass does: the registry it leaves, the viewers whose
    [sendall] returned and the viewers it closed, each in order. *)
Record pass : Type := {
  registry : list viewer;
  delivered : list viewer;
  closed : list viewer
}.

(** [for iclient in self.listclient: ...] of [_handle_client].  A Python
    list iterator keeps an index into the list it walks: each turn takes
    the entry at the index, if there is one, and advances the index; the
    body may shorten the list meanwhile.  In the [except] branch,
    [iclient[2].close()] is taken to return.  [sendall v] tells whether
    [v]'s channel takes the frame ([false]: [sendall] raises). *)
Fixpoint for_iclient (fuel : nat) (sendall : viewer -> bool) (i : nat)
    (p : pass) : option pass :=
  match nth_error (registry p) i with
  | None => Some p
  | Some iclient =>
      match fuel with
      | O => None
      | S fuel' =>
          if sendall iclient then
            for_iclient fuel' sendall (S i)
              {| registry := registry p;
                 delivered := delivered p ++ [iclient];
                 closed := closed p |}
          else
            for_iclient fuel' sendall (S i)
              {| registry := list_remove iclient (registry p);
                 delivered := delivered p;
                 closed := closed p ++ [iclient] |}
      end
  end.

Definition fan_out (sendall : viewer -> bool) (l : list viewer)
  : option pass :=
  for_iclient (List.length l) sendall 0
    {| registry := l; delivered := []; closed := [] |}.

(** One turn of [while self.running] in [_handle_client], for a frame
    taken from the buffer: the fan-out, then the check for an empty
    registry.  The boolean tells whether the loop was left. *)
Definition _handle_client_turn (p : t) (sendall : viewer -> bool)
  : option (t * pass * bool) :=
  match fan_out sendall (listclient p) with
  | None => None
  | Some r =>
      match registry r with
      | [] => Some ({| listclient := []; first := true; running := false |},
                    r, true)
      | l => Some ({| listclient := l; first := first p;
                      running := running p |}, r, false)
      end
  end.

(** How [handle_new_client] comes by its channel: [directchannel] given,
    or the outcome of [client.open_new_subchannel(5)]. *)
Inductive channel_source : Type :=
| Direct (id : Z) (channel : nat)
| Opened (id : option Z) (channel : option nat).

(** The threads and hooks [handle_new_client] starts. *)
Inductive started : Type :=
| Thread_handle_client
| Call_init
| Thread_handle_client_commands (client : nat) (id : Z).

Definition handle_new_client (p : t) (client : nat) (src : channel_source)
  : t * list started :=
  match
    match src with
    | Direct id channel => Some (id, channel)
    | Opened (Some id) (Some channel) => Some (id, channel)
    | Opened _ _ => None
    end
  with
  | None => (p, [])
  | Some (id, channel) =>
      let l := listclient p ++
               [{| v_client := client; v_id := id; v_channel := channel |}] in
      if first p then
        ({| listclient := l; first := false; running := true |},
         [Thread_handle_client; Call_init;
          Thread_handle_client_commands client id])
      else
        ({| listclient := l; first := first p; running := running p |},
         [Thread_handle_client_commands client id])
  end.

End Protocol.

(** ** The session: attaches and broadcast turns, one after the other

    The events that change the registry, taken as atomic steps: a call of
    [handle_new_client], and one turn of the broadcaster for a frame taken
    from the buffer (the only place where a viewer leaves the registry).
    Besides the [Protocol] attributes the state counts the broadcaster
    threads alive and the threads started so far. *)

Module Session.
Import Protocol.

Record t : Type := {
  proto : Protocol.t;
  broadcasters_alive : nat;
  broadcasters_started : nat;
  producers_started : nat
}.

Definition init : t :=
  {| proto := Protocol.__init__; broadcasters_alive := 0;
     broadcasters_started := 0; producers_started := 0 |}.

Inductive event : Type :=
| Attach (client : nat) (src : channel_source)
| Frame (sendall : viewer -> bool).

Definition is_thread (s : started) : bool :=
  match s with Thread_handle_client => true | _ => false end.

Definition is_init (s : started) : bool :=
  match s with Call_init => true | _ => false end.

Definition count (f : started -> bool) (l : list started) : nat :=
  List.length (filter f l).

Definition step (s : t) (e : event) : t :=
  match e with
  | Attach client src =>
      let '(p', ths) := handle_new_client (proto s) client src in
      {| proto := p';
         broadcasters_alive := broadcasters_alive s + count is_thread ths;
         broadcasters_started := broadcasters_started s + count is_thread ths;
         producers_started := producers_started s + count is_init ths |}
  | Frame sendall =>
      (* a frame is taken only by a broadcaster inside [while self.running] *)
      if running (proto s) && negb (Nat.eqb (broadcasters_alive s) 0) then
        match _handle_client_turn (proto s) sendall with
        | Some (p', _, gone) =>
            {| proto := p';
               broadcasters_alive :=
                 if gone then Nat.pred (broadcasters_alive s)
                 else broadcasters_alive s;
               broadcasters_started := broadcasters_started s;
               producers_started := producers_started s |}
        | None => s
        end
      else s
  end.

Definition run (s : t) (tr : list event) : t := fold_left step tr s.

Definition is_empty (l : list viewer) : bool :=
  match l with [] => true | _ => false end.

(** The number of steps of the trace at which the registry goes from
    empty to non-empty. *)
Fixpoint edges (s : t) (tr : list event) : nat :=
  match tr with
  | [] => 0
  | e :: tr' =>
      let s' := step s e in
      ((if is_empty (listclient (proto s))
           && negb (is_empty (listclient (proto s')))
        then 1 else 0) + edges s' tr')%nat
  end.

(** What holds between two events. *)
Definition consistent (s : t) : Prop :=
  running (proto s) = negb (is_empty (listclient (proto s)))
  /\ first (proto s) = is_empty (listclient (proto s))
  /\ broadcasters_alive s = (if running (proto s) then 1 else 0)%nat.

End Session.

(** ** [Protocol._handle_client_commands] *)

Module CommandChannel.
Import Socket ReceiveExact.

Section Loop.

(** [pickle.loads] *)
Variable loads : bytes -> result pyval.
(** [self.handle_commands(command, client)], with the injections done *)
Variable handle_commands : pyval -> result (list RemoDesk.injection).

(** How one turn of [while True] ends. *)
Inductive body_end : Type :=
| Next (done : list RemoDesk.injection) (* the loop goes round again *)
| Break_closed                          (* [if not data_length: break] *)
| Break_socket_error                    (* [except socket.error: break] *)
| Escaped (e : pyexn).                  (* [e] leaves the [while] *)

(** The inner [try ... except socket.error: break]. *)
Definition inner_except (e : pyexn) : body_end :=
  if is_socket_error e then Break_socket_error else Escaped e.

Definition of_result (r : result (list RemoDesk.injection)) : body_end :=
  match r with
  | Ok done => Next done
  | Raise e => inner_except e
  end.

Definition loop_body (s : Socket.t) : option (body_end * Socket.t) :=
  match _receive_exact s 4 with
  | None => None
  | Some (Raise e, s1) => Some (inner_except e, s1)
  | Some (Ok None, s1) | Some (Ok (Some []), s1) => Some (Break_closed, s1)
  | Some (Ok (Some data_length), s1) =>
      match Struct.unpack_I data_length with
      | Raise e => Some (inner_except e, s1)
      | Ok n =>
          match _receive_exact s1 n with
          | None => None
          | Some (Raise e, s2) => Some (inner_except e, s2)
          | Some (Ok command_data, s2) =>
              Some (of_result
                      (command <-
                         match command_data with
                         | Some d => loads d
                         | None => Raise TypeError  (* [pickle.loads(None)] *)
                         end ;;
                       if PyVal.truthy command then handle_commands command
                       else Ok []),
                    s2)
          end
      end
  end.

(** How [_handle_client_commands] ends. *)
Inductive loop_end : Type :=
| Closed                 (* left by [break] after a short read *)
| Socket_error           (* left by [break] in [except socket.error] *)
| Logged (e : pyexn).    (* [except Exception as e: logger.error(...)] *)

Record ended : Type := {
  injected : list RemoDesk.injection;
  ending : loop_end;
  unread : Socket.t
}.

Fixpoint command_loop (fuel : nat) (s : Socket.t) : option ended :=
  match fuel with
  | O => None
  | S fuel' =>
      match loop_body s with
      | None => None
      | Some (Next done, s') =>
          match command_loop fuel' s' with
          | Some r => Some {| injected := done ++ injected r;
                              ending := ending r; unread := unread r |}
          | None => None
          end
      | Some (Break_closed, s') =>
          Some {| injected := []; ending := Closed; unread := s' |}
      | Some (Break_socket_error, s') =>
          Some {| injected := []; ending := Socket_error; unread := s' |}
      | Some (Escaped e, s') =>
          Some {| injected := []; ending := Logged e; unread := s' |}
      end
  end.

(** What is pending on a socket: every event and every byte counts. *)
Fixpoint pending (s : Socket.t) : nat :=
  match s with
  | [] => 0
  | Chunk bs :: s' => S (List.length bs + pending s')
  | SockError :: s' => S (pending s')
  end.

Definition _handle_client_commands (s : Socket.t) : option ended :=
  command_loop (S (pending s)) s.

End Loop.
End CommandChannel.

(** ** A small instance of the interfaces, for the examples

    A picture is the list of its pixels, a pixel the list of its channel
    values (three for BGR, one for grey); the picture without pixels stands
    for [b""], which every cv2 call refuses. *)

Module Sample.

Definition picture := list (list Z).

Fixpoint absdiff_pixel (a b : list Z) : result (list Z) :=
  match a, b with
  | [], [] => Ok []
  | x :: a', y :: b' =>
      r <- absdiff_pixel a' b' ;; Ok (Z.abs (x - y) :: r)
  | _, _ => Raise Cv2Error
  end.

Fixpoint absdiff_pixels (a b : picture) : result picture :=
  match a, b with
  | [], [] => Ok []
  | p :: a', q :: b' =>
      d <- absdiff_pixel p q ;; r <- absdiff_pixels a' b' ;; Ok (d :: r)
  | _, _ => Raise Cv2Error
  end.

Definition absdiff (a b : picture) : result picture :=
  match a with
  | [] => Raise Cv2Error
  | _ => absdiff_pixels a b
  end.

Fixpoint grey_pixels (a : picture) : result picture :=
  match a with
  | [] => Ok []
  | [b; g; r] :: a' =>
      rest <- grey_pixels a' ;;
      Ok ([Z.shiftr (b * 1868 + g * 9617 + r * 4899 + 8192) 14] :: rest)
  | _ :: _ => Raise Cv2Error
  end.

Definition cvtColor_BGR2GRAY (a : picture) : result picture :=
  match a with
  | [] => Raise Cv2Error
  | _ => grey_pixels a
  end.

Definition threshold_BINARY (a : picture) (thresh maxval : Z)
  : result picture :=
  match a with
  | [] => Raise Cv2Error
  | _ => Ok (map (map (fun v => if thresh <? v then maxval else 0)) a)
  end.

Definition count_nonzero (a : picture) : Z :=
  len (filter (fun v => negb (v =? 0)) (List.concat a)).

Definition resize_NEAREST (a : picture) (size : list Z) : result picture :=
  match a, size with
  | _ :: _, [w; h] =>
      if (0 <? w) && (0 <? h) then
        Ok (map (fun j => nth (Z.to_nat (Z.of_nat j * len a / (w * h))) a [])
              (seq 0 (Z.to_nat (w * h))))
      else Raise Cv2Error
  | _, _ => Raise Cv2Error
  end.

(** The codec takes BGR pictures; on any other picture it reports
    failure. *)
Definition is_bgr (a : picture) : bool :=
  forallb (fun p => Nat.eqb (List.length p) 3) a.

Definition imencode (e : string) (a : picture) (q : Z)
  : result (bool * bytes) :=
  match a with
  | [] => Raise Cv2Error
  | _ => if is_bgr a then Ok (true, map byte.of_Z (List.concat a))
         else Ok (false, [])
  end.

Definition compress (data : bytes) (q w : Z) : result bytes :=
  if (0 <=? q) && (q <=? 11) && (10 <=? w) && (w <=? 24) then Ok data
  else Raise BrotliError.

#[export] Instance externals : Externals picture := {
  empty_bytes := [];
  cv2_absdiff := absdiff;
  cv2_cvtColor_BGR2GRAY := cvtColor_BGR2GRAY;
  cv2_threshold_BINARY := threshold_BINARY;
  np_count_nonzero := count_nonzero;
  cv2_resize_NEAREST := resize_NEAREST;
  cv2_imencode := imencode;
  brotli_compress := compress
}.

(** A black and a white picture of [n] BGR pixels. *)
Definition black (n : nat) : picture := repeat [0; 0; 0] n.
Definition white (n : nat) : picture := repeat [255; 255; 255] n.

(** A grey picture, which the sample codec does not encode. *)
Definition grey1 : picture := [[7]].

(** A [pickle.loads] for three byte strings; everything else is not a
    pickle. *)
Definition move_command (x y : Z) : pyval :=
  PyDict [("action", PyStr "move_mouse");
          ("data", PyDict [("x", PyInt x); ("y", PyInt y)])]%string.

Definition click_command (b : Z) (state : string) : pyval :=
  PyDict [("action", PyStr "click_mouse");
          ("data", PyDict [("button", PyInt b); ("state", PyStr state)])]%string.

Definition loads (d : bytes) : result pyval :=
  match d with
  | [Byte.x01] => Ok (move_command 960 545)
  | [Byte.x02] => Ok (click_command 1 "down")
  | [Byte.x03] => Ok (PyDict [("action", PyStr "move_mouse")]%string)
  | _ => Raise UnpicklingError
  end.

(** Injections that always return. *)
Definition inject (c : RemoDesk.injection) : result unit := Ok tt.

(** A length-prefixed message. *)
Definition message (body : bytes) : bytes :=
  match Struct.pack_I (len body) with
  | Ok h => h ++ body
  | Raise _ => []
  end.

(** Six bytes that arrive in three chunks of one, two and three. *)
Definition fragmented : Socket.t :=
  [Socket.Chunk [Byte.x0a]; Socket.Chunk [Byte.x0b; Byte.x0c];
   Socket.Chunk [Byte.x0d; Byte.x0e; Byte.x0f]].

(** [RemoDesk(format=fmt, resolution=res, activity_threshold=T)], the
    other arguments at their defaults. *)
Definition desk (fmt : string) (res : option (list Z)) (T : option Z)
  : @RemoDesk.t picture :=
  RemoDesk.__init__ 50 50 fmt res T true.

(** The same after a capture of a 1920x1080 screen. *)
Definition captured (st : @RemoDesk.t picture) : @RemoDesk.t picture :=
  RemoDesk.set_screensize st [1920; 1080].

(** An injector whose every call raises [e]. *)
Definition inject_raising (e : pyexn) (c : RemoDesk.injection)
  : result unit := Raise e.

(** The dispatch of a [RemoDesk] that has captured a 1920x1080 screen. *)
Definition dispatch : pyval -> result (list RemoDesk.injection) :=
  RemoDesk.handle_commands inject (captured (desk "jpeg" None None)).

(** A message that is no pickle, followed by a move command. *)
Definition garbled_then_move : Socket.t :=
  [Socket.Chunk (message [Byte.x00] ++ message [Byte.x01])].

Definition viewer1 : Protocol.viewer :=
  {| Protocol.v_client := 1; Protocol.v_id := 1; Protocol.v_channel := 1 |}.
Definition viewer2 : Protocol.viewer :=
  {| Protocol.v_client := 2; Protocol.v_id := 2; Protocol.v_channel := 2 |}.
Definition viewer3 : Protocol.viewer :=
  {| Protocol.v_client := 3; Protocol.v_id := 3; Protocol.v_channel := 3 |}.

(** [sendall] raises on the channel of [viewer1] only. *)
Definition viewer1_broken (v : Protocol.viewer) : bool :=
  negb (Protocol.viewer_eqb v viewer1).

(** [sendall] raises on every channel. *)
Definition all_broken (v : Protocol.viewer) : bool := false.

(** [sendall] returns on every channel. *)
Definition all_well (v : Protocol.viewer) : bool := true.

(** The scenario of the specification: two attaches, frames until both
    viewers are gone, a further attach. *)
Definition scenario : list Session.event :=
  [Session.Attach 1 (Protocol.Direct 1 1);
   Session.Attach 2 (Protocol.Direct 2 2);
   Session.Frame all_well;
   Session.Frame all_broken;
   Session.Frame all_broken;
   Session.Attach 3 (Protocol.Direct 3 3)].

End Sample.

(** ** The statements of the specification, in its own words *)

Module Spec.

(** [(int(x * nativeWidth/resolutionWidth),
      int(y * nativeHeight/resolutionHeight))], the scale factor being
    formed first, as the code forms it. *)
Definition linear_scaling (x y nativeWidth nativeHeight
    resolutionWidth resolutionHeight : Z) : result (Z * Z) :=
  sx <- PyFloat.truediv nativeWidth resolutionWidth ;;
  fx <- PyFloat.of_int x ;;
  tx <- PyFloat.to_int (PyFloat.mul fx sx) ;;
  sy <- PyFloat.truediv nativeHeight resolutionHeight ;;
  fy <- PyFloat.of_int y ;;
  ty <- PyFloat.to_int (PyFloat.mul fy sy) ;;
  Ok (tx, ty).

(** What a consumer reads as an unsigned 32-bit big-endian integer. *)
Definition u32be (b : bytes) : option Z :=
  match b with
  | [b3; b2; b1; b0] =>
      Some (byte.unsigned b3 * 2 ^ 24 + byte.unsigned b2 * 2 ^ 16
            + byte.unsigned b1 * 2 ^ 8 + byte.unsigned b0)
  | _ => None
  end.

(** [[payloadLength:u32be][width:u32be][height:u32be][payload]]: a header
    of twelve bytes, then exactly [payloadLength] bytes. *)
Definition wire_format (w : bytes) : Prop :=
  exists header payload width height,
    w = header ++ payload /\
    len header = 12 /\
    u32be (firstn 4 header) = Some (len payload) /\
    u32be (firstn 4 (skipn 4 header)) = Some width /\
    u32be (skipn 8 header) = Some height.

End Spec.

(** ** Decision procedures used in the proofs *)

Module Decide.
Import RemoDesk.

(** The percentages 0, 1, ..., 100. *)
Definition percentages : list Z := map Z.of_nat (seq 0 101).

(** On [q1 <= q2]: both calls return, inside the ranges, in order. *)
Definition in_order (q1 q2 : Z) : bool :=
  if q1 <=? q2 then
    match _convert_quality q1, _convert_quality q2 with
    | Ok (b1, w1), Ok (b2, w2) =>
        (0 <=? b1) && (b1 <=? b2) && (b2 <=? 11)
        && (10 <=? w1) && (w1 <=? w2) && (w2 <=? 24)
    | _, _ => false
    end
  else true.

End Decide.

(** ** Further definitions for the statements about the loops *)

Module Derived.

(** What the command loop does with the body of one message:
    [pickle.loads], then the dispatch of a truthy command. *)
Definition decode_dispatch (loads : bytes -> result pyval)
    (handle : pyval -> result (list RemoDesk.injection)) (body : bytes)
  : result (list RemoDesk.injection) :=
  command <- loads body ;;
  if PyVal.truthy command then handle command else Ok [].

(** The bytes of a sequence of length-prefixed messages. *)
Fixpoint framed (bodies : list bytes) : bytes :=
  match bodies with
  | [] => []
  | body :: rest => Sample.message body ++ framed rest
  end.

(** The injections of a sequence of messages, each dispatched in turn. *)
Definition injections_of (loads : bytes -> result pyval)
    (handle : pyval -> result (list RemoDesk.injection))
    (bodies : list bytes) : list RemoDesk.injection :=
  flat_map (fun body => match decode_dispatch loads handle body with
                        | Ok done => done
                        | Raise _ => []
                        end) bodies.

(** The viewers that the attaches of a trace put on the registry. *)
Fixpoint attached (tr : list Session.event) : list Protocol.viewer :=
  match tr with
  | [] => []
  | Session.Attach client (Protocol.Direct id channel) :: tr'
  | Session.Attach client (Protocol.Opened (Some id) (Some channel)) :: tr' =>
      {| Protocol.v_client := client; Protocol.v_id := id;
         Protocol.v_channel := channel |} :: attached tr'
  | _ :: tr' => attached tr'
  end.

(** What a turn of the capture loop never writes: the configuration, and
    a resolution once there is one. *)
Definition settled {frame : Type} (st st' : @RemoDesk.t frame) : Prop :=
  RemoDesk.quality st' = RemoDesk.quality st
  /\ RemoDesk.compression st' = RemoDesk.compression st
  /\ RemoDesk.format st' = RemoDesk.format st
  /\ RemoDesk.threshold st' = RemoDesk.threshold st
  /\ RemoDesk.compress2 st' = RemoDesk.compress2 st
  /\ (forall r, RemoDesk.resolution_truthy st = Some r ->
                RemoDesk.resolution st' = RemoDesk.resolution st).

(** A [pickle.loads] under which every body is the pickle of [None]. *)
Definition loads_none (body : bytes) : result pyval := Ok PyNone.

(** A dispatch that raises whatever the command. *)
Definition handle_raising (command : pyval)
  : result (list RemoDesk.injection) := Raise ValueError.

(** [_convert_quality] in exact integer arithmetic. *)
Definition floor_quality (q : Z) : Z * Z :=
  (11 * q / 100, 10 + 14 * q / 100).

Definition is_floor_quality (q : Z) : bool :=
  match RemoDesk._convert_quality q with
  | Ok (b, w) => (b =? fst (floor_quality q)) && (w =? snd (floor_quality q))
  | Raise _ => false
  end.

End Derived.

(** * Properties *)

(** ** [_receive_exact] *)

Module ReceiveExactFacts.
Import Socket ReceiveExact Sample.

Lemma len_app {A : Type} (l1 l2 : list A) : len (l1 ++ l2) = len l1 + len l2.
Proof. unfold len. rewrite length_app. lia. Qed.

Lemma len_nonneg {A : Type} (l : list A) : 0 <= len l.
Proof. unfold len. lia. Qed.

Lemma firstn_len_app {A : Type} (k : Z) (l1 l2 : list A) :
  len l1 <= k ->
  firstn (Z.to_nat k) (l1 ++ l2) = l1 ++ firstn (Z.to_nat (k - len l1)) l2.
Proof.
  unfold len. intros H. rewrite firstn_app.
  rewrite firstn_all2 by lia. do 2 f_equal. lia.
Qed.

Lemma firstn_len_short {A : Type} (k : Z) (l1 l2 : list A) :
  k <= len l1 -> firstn (Z.to_nat k) (l1 ++ l2) = firstn (Z.to_nat k) l1.
Proof.
  unfold len. intros H. rewrite firstn_app.
  replace (Z.to_nat k - List.length l1)%nat with 0%nat by lia.
  apply app_nil_r.
Qed.

(** What the loop computes from any accumulator that is not yet too
    long, given fuel for the bytes still missing. *)
Lemma receive_loop_spec (fuel : nat) :
  forall (n : Z) (data : bytes) (s : Socket.t),
    len data <= n -> n - len data <= Z.of_nat fuel ->
    exists r s', receive_loop fuel n data s = Some (r, s') /\
      match r with
      | Ok (Some d) =>
          len d = n /\
          d = data ++ firstn (Z.to_nat (n - len data)) (incoming s)
      | Ok None => len data + len (incoming s) < n
      | Raise _ => error_free s = false
      end.
Proof.
  induction fuel as [|fuel IH]; intros n data s Hle Hfuel.
  - assert (len data = n) as E by lia.
    exists (Ok (Some data)), s. simpl.
    destruct (Z.ltb_spec (len data) n); [lia|].
    split; [reflexivity|]. split; [exact E|].
    replace (n - len data) with 0 by lia. simpl. now rewrite app_nil_r.
  - cbn [receive_loop]. destruct (Z.ltb_spec (len data) n) as [Hlt|Hge].
    2:{ exists (Ok (Some data)), s. split; [reflexivity|].
        split; [lia|]. replace (n - len data) with 0 by lia.
        simpl. now rewrite app_nil_r. }
    destruct s as [|[bs|] s']; cbn [recv].
    + exists (Ok None), []. split; [reflexivity|]. cbn. lia.
    + destruct (Z.leb_spec (len bs) (n - len data)) as [Hfit|Hbig].
      * destruct bs as [|b bs'].
        -- exists (Ok None), s'. split; [reflexivity|]. cbn. lia.
        -- destruct (IH n (data ++ b :: bs') s') as (r & s2 & Hr & Hspec).
           { rewrite len_app. lia. }
           { rewrite len_app. pose proof (len_nonneg (b :: bs')).
             assert (0 < len (b :: bs')) by (unfold len; simpl; lia). lia. }
           exists r, s2. split; [exact Hr|].
           destruct r as [[d|]|e].
           ++ destruct Hspec as [Hlen Hd]. split; [exact Hlen|].
              rewrite Hd. rewrite len_app.
              change (incoming (Chunk (b :: bs') :: s'))
                with ((b :: bs') ++ incoming s').
              rewrite (firstn_len_app (n - len data)) by exact Hfit.
              rewrite <- app_assoc. do 3 f_equal. lia.
           ++ change (incoming (Chunk (b :: bs') :: s'))
                with ((b :: bs') ++ incoming s').
              rewrite !len_app in *. lia.
           ++ exact Hspec.
      * assert (Hk : len (firstn (Z.to_nat (n - len data)) bs) = n - len data).
        { unfold len in *. rewrite length_firstn. lia. }
        destruct (firstn (Z.to_nat (n - len data)) bs) as [|p ps] eqn:Hfirst.
        { unfold len in *. simpl in Hk. lia. }
        destruct (IH n (data ++ p :: ps) (Chunk (skipn (Z.to_nat (n - len data)) bs) :: s'))
          as (r & s2 & Hr & Hspec).
        { rewrite len_app. lia. }
        { rewrite len_app. lia. }
        exists r, s2. split; [exact Hr|].
        assert (Hbs : exists b bs', bs = b :: bs').
        { destruct bs as [|b bs']; [simpl in Hfirst; destruct (Z.to_nat (n - len data)); discriminate|eauto]. }
        destruct Hbs as (b & bs' & ->).
        destruct r as [[d|]|e].
        -- destruct Hspec as [Hlen Hd]. split; [exact Hlen|].
           rewrite Hd. rewrite len_app, Hk.
           replace (n - (len data + (n - len data))) with 0 by lia.
           simpl firstn at 1. rewrite app_nil_r.
           change (incoming (Chunk (b :: bs') :: s'))
             with ((b :: bs') ++ incoming s').
           rewrite firstn_len_short by lia. now rewrite Hfirst.
        -- rewrite len_app, Hk in Hspec.
           pose proof (len_nonneg (incoming (Chunk (skipn (Z.to_nat (n - len data)) (b :: bs')) :: s'))).
           lia.
        -- exact Hspec.
    + exists (Raise OSError), s'. split; reflexivity.
Qed.

Example receive_exact_fragmented :
  _receive_exact fragmented 4
  = Some (Ok (Some [Byte.x0a; Byte.x0b; Byte.x0c; Byte.x0d]),
          [Chunk [Byte.x0e; Byte.x0f]]).
Proof. reflexivity. Qed.

Example receive_exact_closed_early :
  _receive_exact fragmented 7 = Some (Ok None, []).
Proof. reflexivity. Qed.

Example receive_exact_transport_failure :
  _receive_exact [Chunk [Byte.x0a]; SockError] 4 = Some (Raise OSError, []).
Proof. reflexivity. Qed.

(** The call returns for every [n >= 0]. *)
Lemma receive_exact_total (s : Socket.t) (n : Z) :
  0 <= n -> exists r s', _receive_exact s n = Some (r, s').
Proof.
  intros Hn. unfold _receive_exact.
  destruct (receive_loop_spec (Z.to_nat n) n [] s) as (r & s' & Hr & _).
  - unfold len. simpl. lia.
  - unfold len. simpl. lia.
  - eauto.
Qed.

(** C10.  [_receive_exact(socket, n)] is all-or-nothing: for every
    [n >= 0] and every way the transport cuts the peer's bytes into
    chunks, the call ends, and it returns either a byte string of length
    exactly [n] (the first [n] bytes that arrived, gathered over as many
    reads as it takes) or [None], the latter when the peer closed before
    [n] bytes arrived.  It never returns a shorter buffer.  The only other
    way out is the [socket.error] of a failing transport, which is raised,
    not returned. *)
Theorem receive_exact_all_or_nothing (s : Socket.t) (n : Z) :
  0 <= n ->
  exists r s', _receive_exact s n = Some (r, s') /\
    match r with
    | Ok (Some data) =>
        len data = n /\ data = firstn (Z.to_nat n) (incoming s)
    | Ok None => len (incoming s) < n
    | Raise _ => error_free s = false
    end.
Proof.
  intros Hn. unfold _receive_exact.
  destruct (receive_loop_spec (Z.to_nat n) n [] s) as (r & s' & Hr & Hspec).
  - unfold len. simpl. lia.
  - unfold len. simpl. lia.
  - exists r, s'. split; [exact Hr|].
    destruct r as [[d|]|e]; [|exact Hspec|exact Hspec].
    destruct Hspec as [Hlen Hd]. split; [exact Hlen|].
    rewrite Hd. simpl. f_equal. unfold len. simpl. f_equal. lia.
Qed.

Lemma receive_exact_all_or_nothing_witness :
  0 <= 4 /\
  exists r s', _receive_exact fragmented 4 = Some (r, s') /\
    match r with
    | Ok (Some data) =>
        len data = 4 /\ data = firstn (Z.to_nat 4) (incoming fragmented)
    | Ok None => len (incoming fragmented) < 4
    | Raise _ => error_free fragmented = false
    end.
Proof.
  split; [lia | apply (receive_exact_all_or_nothing fragmented 4); lia].
Defined.

End ReceiveExactFacts.

(** ** [_convert_quality] *)

Module QualityFacts.
Import RemoDesk Decide.

Lemma in_percentages (q : Z) : 0 <= q <= 100 -> In q percentages.
Proof.
  intros H. unfold percentages. apply in_map_iff.
  exists (Z.to_nat q). split; [lia|]. apply in_seq. lia.
Qed.

Lemma in_order_all :
  forallb (fun q1 => forallb (in_order q1) percentages) percentages = true.
Proof. vm_compute. reflexivity. Qed.

Example convert_quality_50 : _convert_quality 50 = Ok (5, 17).
Proof. vm_compute. reflexivity. Qed.

(** C9.  Over the integer percentages 0..100 [_convert_quality] returns,
    it is monotonically non-decreasing in both outputs, the brotli
    quality lies in [0, 11] and the window size in [10, 24]; 0 is mapped
    to (0, 10) and 100 to (11, 24). *)
Theorem convert_quality_monotone_in_range (q1 q2 : Z) :
  0 <= q1 -> q1 <= q2 -> q2 <= 100 ->
  exists b1 w1 b2 w2,
    _convert_quality q1 = Ok (b1, w1) /\
    _convert_quality q2 = Ok (b2, w2) /\
    0 <= b1 <= b2 /\ b2 <= 11 /\ 10 <= w1 <= w2 /\ w2 <= 24 /\
    _convert_quality 0 = Ok (0, 10) /\
    _convert_quality 100 = Ok (11, 24).
Proof.
  intros H0 H12 H100.
  pose proof in_order_all as Hall.
  rewrite forallb_forall in Hall.
  specialize (Hall q1 (in_percentages q1 ltac:(lia))).
  rewrite forallb_forall in Hall.
  specialize (Hall q2 (in_percentages q2 ltac:(lia))).
  unfold in_order in Hall.
  destruct (Z.leb_spec q1 q2); [|lia].
  destruct (_convert_quality q1) as [[b1 w1]|]; [|discriminate].
  destruct (_convert_quality q2) as [[b2 w2]|]; [|discriminate].
  exists b1, w1, b2, w2.
  repeat (apply andb_prop in Hall; destruct Hall as [Hall ?]).
  repeat split; try lia; vm_compute; reflexivity.
Qed.

Lemma convert_quality_monotone_in_range_witness :
  exists b1 w1 b2 w2,
    _convert_quality 30 = Ok (b1, w1) /\
    _convert_quality 70 = Ok (b2, w2) /\
    0 <= b1 <= b2 /\ b2 <= 11 /\ 10 <= w1 <= w2 /\ w2 <= 24 /\
    _convert_quality 0 = Ok (0, 10) /\
    _convert_quality 100 = Ok (11, 24).
Proof. apply (convert_quality_monotone_in_range 30 70); lia. Defined.

End QualityFacts.

(** ** [_translate_coordinates] *)

Module TranslateFacts.
Import RemoDesk.

Lemma truediv_finite (a b : Z) (f : PyFloat.float) :
  PyFloat.truediv a b = Ok f -> PyFloat.is_finite f = true.
Proof.
  unfold PyFloat.truediv.
  destruct (b =? 0); [discriminate|].
  destruct (a =? 0); [intros [= <-]; reflexivity|].
  destruct (SFdiv_core_binary _ _ _ _ _ _) as [[m e] l].
  destruct (PyFloat.is_finite _) eqn:E; [|discriminate].
  intros [= <-]. exact E.
Qed.

Lemma scaled_zero (num den : Z) (s : PyFloat.float) :
  PyFloat.truediv num den = Ok s -> scaled (PyInt 0) num den = Ok 0.
Proof.
  intros H. unfold scaled. rewrite H. cbn [bind].
  apply truediv_finite in H.
  destruct s as [sg|sg| |sg m e]; try discriminate; reflexivity.
Qed.

Lemma scaled_linear (x num den : Z) :
  scaled (PyInt x) num den
  = (s <- PyFloat.truediv num den ;; fx <- PyFloat.of_int x ;;
     PyFloat.to_int (PyFloat.mul fx s)).
Proof.
  unfold scaled. destruct (PyFloat.truediv num den); [|reflexivity].
  cbn [bind PyVal.mul_float]. destruct (PyFloat.of_int x); reflexivity.
Qed.

Section WithFrame.
Context {frame : Type}.
Implicit Type st : @RemoDesk.t frame.

(** The translation once the native size is known and the reference
    size [RW] x [RH] is fixed. *)
Lemma translate_with_reference st (x y : pyval) (W H RW RH : Z) :
  screensize st = [W; H] ->
  resolution st = Some [RW; RH]
  \/ resolution_truthy st = None /\ RW = 1920 /\ RH = 1090 ->
  _translate_coordinates st x y
  = (tx <- scaled x W RW ;; ty <- scaled y H RH ;; Ok (tx, ty)).
Proof.
  intros Hsize [Hres|(Hres & -> & ->)]; unfold _translate_coordinates.
  - unfold resolution_truthy. rewrite Hres, Hsize. reflexivity.
  - rewrite Hres, Hsize. reflexivity.
Qed.

Example translate_before_first_capture (x y : pyval) :
  _translate_coordinates (__init__ 50 50 "jpeg" None None true : @RemoDesk.t frame) x y
  = Raise IndexError.
Proof. reflexivity. Qed.

(** C7, as amended.  Once [screensize] holds the native size [(W, H)],
    [_translate_coordinates(x, y)] is
    [(int(x * (W / RW)), int(y * (H / RH)))] where [(RW, RH)] is the
    Resolution when one is set and the fixed reference 1920 x 1090
    otherwise; [(0, 0)] goes to [(0, 0)] whenever the two scale factors
    can be formed; and with Resolution and native size both
    1920 x 1090, [(960, 545)] goes to [(960, 545)]. *)
Theorem translate_coordinates_scaling st (x y W H RW RH : Z) :
  screensize st = [W; H] ->
  resolution st = Some [RW; RH]
  \/ resolution_truthy st = None /\ RW = 1920 /\ RH = 1090 ->
  _translate_coordinates st (PyInt x) (PyInt y)
  = Spec.linear_scaling x y W H RW RH
  /\ (forall sx sy,
         PyFloat.truediv W RW = Ok sx -> PyFloat.truediv H RH = Ok sy ->
         _translate_coordinates st (PyInt 0) (PyInt 0) = Ok (0, 0))
  /\ (W = 1920 -> H = 1090 -> RW = 1920 -> RH = 1090 ->
      _translate_coordinates st (PyInt 960) (PyInt 545) = Ok (960, 545)).
Proof.
  intros Hsize Hres. repeat split.
  - rewrite (translate_with_reference st _ _ W H RW RH Hsize Hres).
    rewrite !scaled_linear. unfold Spec.linear_scaling.
    destruct (PyFloat.truediv W RW); [|reflexivity]. cbn [bind].
    destruct (PyFloat.of_int x); [|reflexivity]. cbn [bind].
    destruct (PyFloat.to_int _); [|reflexivity]. cbn [bind].
    destruct (PyFloat.truediv H RH); [|reflexivity]. cbn [bind].
    destruct (PyFloat.of_int y); [|reflexivity]. cbn [bind].
    destruct (PyFloat.to_int _); reflexivity.
  - intros sx sy Hx Hy.
    rewrite (translate_with_reference st _ _ W H RW RH Hsize Hres).
    rewrite (scaled_zero _ _ _ Hx), (scaled_zero _ _ _ Hy). reflexivity.
  - intros -> -> -> ->.
    rewrite (translate_with_reference st _ _ _ _ _ _ Hsize Hres).
    vm_compute. reflexivity.
Qed.

End WithFrame.

Example translate_identity :
  _translate_coordinates
    (set_screensize (Sample.desk "jpeg" (Some [1920; 1090]) None) [1920; 1090])
    (PyInt 960) (PyInt 545) = Ok (960, 545).
Proof. vm_compute. reflexivity. Qed.

Example translate_fallback_reference :
  _translate_coordinates (Sample.captured (Sample.desk "jpeg" None None))
    (PyInt 960) (PyInt 545) = Ok (960, 540).
Proof. vm_compute. reflexivity. Qed.

(** Floats, not rationals: the native width 1 against the width 49 sends
    49 to 0, since 1/49 rounds down and 49 times that stays below 1. *)
Example translate_rounds_as_floats :
  _translate_coordinates
    (set_screensize (Sample.desk "jpeg" (Some [49; 49]) None) [1; 1])
    (PyInt 49) (PyInt 49) = Ok (0, 0).
Proof. vm_compute. reflexivity. Qed.

Lemma translate_coordinates_scaling_witness :
  _translate_coordinates
    (set_screensize (Sample.desk "jpeg" (Some [1920; 1090]) None) [1920; 1090])
    (PyInt 640) (PyInt 360)
  = Spec.linear_scaling 640 360 1920 1090 1920 1090
  /\ (forall sx sy,
         PyFloat.truediv 1920 1920 = Ok sx ->
         PyFloat.truediv 1090 1090 = Ok sy ->
         _translate_coordinates
           (set_screensize (Sample.desk "jpeg" (Some [1920; 1090]) None)
              [1920; 1090])
           (PyInt 0) (PyInt 0) = Ok (0, 0))
  /\ (1920 = 1920 -> 1090 = 1090 -> 1920 = 1920 -> 1090 = 1090 ->
      _translate_coordinates
        (set_screensize (Sample.desk "jpeg" (Some [1920; 1090]) None)
           [1920; 1090])
        (PyInt 960) (PyInt 545) = Ok (960, 545)).
Proof.
  apply (translate_coordinates_scaling
           (set_screensize (Sample.desk "jpeg" (Some [1920; 1090]) None)
              [1920; 1090])
           640 360 1920 1090 1920 1090).
  - reflexivity.
  - left. reflexivity.
Defined.

(** C7 as stated fails: on a [RemoDesk] that has not captured a screen
    yet, [screensize] is the empty tuple and translating [(0, 0)] raises
    [IndexError] instead of returning [(0, 0)]. *)
Lemma translate_origin_not_always_origin :
  _translate_coordinates (Sample.desk "jpeg" None None) (PyInt 0) (PyInt 0)
  = Raise IndexError
  /\ _translate_coordinates (Sample.desk "jpeg" None None) (PyInt 0) (PyInt 0)
     <> Ok (0, 0).
Proof. split; [reflexivity|discriminate]. Qed.

End TranslateFacts.

(** ** [_detect_activity] *)

Module ActivityFacts.
Import RemoDesk.

Section WithExternals.
Context {frame : Type} {ext : Externals frame}.
Implicit Type st : @RemoDesk.t frame.

Lemma threshold_truthy_some st (T : Z) :
  threshold st = Some T -> T <> 0 -> threshold_truthy st = Some T.
Proof.
  intros HT Hnz. unfold threshold_truthy. rewrite HT.
  destruct (Z.eqb_spec T 0); [contradiction|reflexivity].
Qed.

Lemma threshold_truthy_none st :
  threshold st = None \/ threshold st = Some 0 ->
  threshold_truthy st = None.
Proof.
  unfold threshold_truthy. intros [-> | ->]; reflexivity.
Qed.

(** With a threshold that is not zero, the first frame of a fresh
    [RemoDesk] never reaches the buffer. *)
Lemma first_frame_not_sent st (T : Z) (g : grab) :
  threshold st = Some T -> T <> 0 -> previous_frame st = None ->
  fst (capture_body st g) = Ok None.
Proof.
  intros HT Hnz Hprev. unfold capture_body.
  destruct (_capture_screen st g) as [img st1] eqn:Hcap.
  assert (threshold st1 = Some T /\ previous_frame st1 = None) as [HT1 Hp1].
  { destruct g; cbn in Hcap; injection Hcap as <- <-; cbn; auto. }
  unfold _detect_activity.
  rewrite (threshold_truthy_some st1 T HT1 Hnz), Hp1. reflexivity.
Qed.

(** C5, as amended.  When [threshold] is [None] or 0,
    [_detect_activity] returns [True] for every frame and leaves the
    state as it is.  When [threshold] is a number other than 0, the
    first call (no previous frame) returns [False] and stores the
    frame, so that the first captured frame is not put on the buffer. *)
Theorem detect_activity_cold_start st (current_frame : frame) :
  (threshold st = None \/ threshold st = Some 0 ->
   _detect_activity st current_frame = (Ok true, st))
  /\ (forall T, threshold st = Some T -> T <> 0 ->
      previous_frame st = None ->
      _detect_activity st current_frame
      = (Ok false, set_previous_frame st current_frame)
      /\ forall g turns,
           _capture st (Active g :: turns)
           = _capture (snd (capture_body st g)) turns).
Proof.
  split.
  - intros H. unfold _detect_activity.
    rewrite (threshold_truthy_none st H). reflexivity.
  - intros T HT Hnz Hprev. split.
    + unfold _detect_activity.
      rewrite (threshold_truthy_some st T HT Hnz), Hprev. reflexivity.
    + intros g turns. cbn [_capture].
      pose proof (first_frame_not_sent st T g HT Hnz Hprev) as Hfst.
      destruct (capture_body st g) as [r st']. cbn in Hfst. subst r.
      reflexivity.
Qed.

(** C6, as amended.  With a threshold [T] other than 0 and a previous
    frame [A] stored, a call with frame [B] for which cv2 yields the
    difference mask answers [True] exactly when more than 500 pixels
    of the mask are non-zero, and stores [B] whatever the answer. *)
Theorem detect_activity_compares st (A B : frame) (T count : Z) :
  threshold st = Some T -> T <> 0 ->
  previous_frame st = Some A ->
  diff_count B A T = Ok count ->
  _detect_activity st B = (Ok (500 <? count), set_previous_frame st B)
  /\ (count <= 500 -> fst (_detect_activity st B) = Ok false)
  /\ (500 < count -> fst (_detect_activity st B) = Ok true)
  /\ previous_frame (snd (_detect_activity st B)) = Some B.
Proof.
  intros HT Hnz Hprev Hcount.
  assert (E : _detect_activity st B
              = (Ok (500 <? count), set_previous_frame st B)).
  { unfold _detect_activity.
    rewrite (threshold_truthy_some st T HT Hnz), Hprev, Hcount.
    reflexivity. }
  rewrite E. cbn [fst snd]. repeat split.
  - intros Hle. destruct (Z.ltb_spec 500 count); [lia|reflexivity].
  - intros Hlt. destruct (Z.ltb_spec 500 count); [reflexivity|lia].
Qed.

End WithExternals.

Import Sample.

Example diff_black_white :
  diff_count (white 600) (black 600) 30 = Ok 600.
Proof. vm_compute. reflexivity. Qed.

Example diff_small_change :
  diff_count (white 500 ++ black 100) (black 600) 30 = Ok 500.
Proof. vm_compute. reflexivity. Qed.

Lemma detect_activity_cold_start_witness :
  (threshold (desk "jpeg" None (Some 30)) = None
   \/ threshold (desk "jpeg" None (Some 30)) = Some 0 ->
   _detect_activity (desk "jpeg" None (Some 30)) (white 4)
   = (Ok true, desk "jpeg" None (Some 30)))
  /\ (forall T, threshold (desk "jpeg" None (Some 30)) = Some T -> T <> 0 ->
      previous_frame (desk "jpeg" None (Some 30)) = None ->
      _detect_activity (desk "jpeg" None (Some 30)) (white 4)
      = (Ok false, set_previous_frame (desk "jpeg" None (Some 30)) (white 4))
      /\ forall g turns,
           _capture (desk "jpeg" None (Some 30)) (Active g :: turns)
           = _capture (snd (capture_body (desk "jpeg" None (Some 30)) g)) turns).
Proof. exact (detect_activity_cold_start (desk "jpeg" None (Some 30)) (white 4)). Defined.

Lemma detect_activity_compares_witness :
  _detect_activity (set_previous_frame (desk "jpeg" None (Some 30)) (black 600))
    (white 600)
  = (Ok (500 <? 600),
     set_previous_frame
       (set_previous_frame (desk "jpeg" None (Some 30)) (black 600))
       (white 600))
  /\ (600 <= 500 ->
      fst (_detect_activity
             (set_previous_frame (desk "jpeg" None (Some 30)) (black 600))
             (white 600)) = Ok false)
  /\ (500 < 600 ->
      fst (_detect_activity
             (set_previous_frame (desk "jpeg" None (Some 30)) (black 600))
             (white 600)) = Ok true)
  /\ previous_frame
       (snd (_detect_activity
               (set_previous_frame (desk "jpeg" None (Some 30)) (black 600))
               (white 600))) = Some (white 600).
Proof.
  apply (detect_activity_compares
           (set_previous_frame (desk "jpeg" None (Some 30)) (black 600))
           (black 600) (white 600) 30 600).
  - reflexivity.
  - lia.
  - reflexivity.
  - vm_compute. reflexivity.
Defined.

(** C5 as stated fails: with the threshold configured as 0 the first call
    returns [True] and stores nothing. *)
Lemma threshold_zero_sends_first_frame :
  threshold (desk "jpeg" None (Some 0)) = Some 0
  /\ previous_frame (desk "jpeg" None (Some 0)) = None
  /\ _detect_activity (desk "jpeg" None (Some 0)) (white 4)
     = (Ok true, desk "jpeg" None (Some 0))
  /\ _detect_activity (desk "jpeg" None (Some 0)) (white 4)
     <> (Ok false, set_previous_frame (desk "jpeg" None (Some 0)) (white 4)).
Proof. repeat split; discriminate. Qed.

(** C6 as stated fails: with the threshold configured as 0, a second call
    with an unchanged picture (no pixel differs, so at most 500 do)
    returns [True], and [previous_frame] is not updated. *)
Lemma threshold_zero_never_compares :
  diff_count (black 4) (black 4) 0 = Ok 0
  /\ fst (_detect_activity
            (snd (_detect_activity (desk "jpeg" None (Some 0)) (black 4)))
            (black 4)) = Ok true
  /\ previous_frame
       (snd (_detect_activity
               (snd (_detect_activity (desk "jpeg" None (Some 0)) (black 4)))
               (black 4))) = None.
Proof. repeat split. Qed.

End ActivityFacts.

(** ** The wire frames of [_capture] *)

Module WireFacts.
Import RemoDesk.

Lemma unsigned_of_Z_mod (z : Z) : byte.unsigned (byte.of_Z z) = z mod 256.
Proof. rewrite byte.unsigned_of_Z. reflexivity. Qed.

(** [struct.pack('!I', v)] gives four bytes that read back as [v]. *)
Lemma pack_I_reads_back (v : Z) (h : bytes) :
  Struct.pack_I v = Ok h ->
  exists b3 b2 b1 b0, h = [b3; b2; b1; b0] /\ Spec.u32be h = Some v.
Proof.
  unfold Struct.pack_I.
  destruct ((0 <=? v) && (v <? 2 ^ 32)) eqn:Hrange; [|discriminate].
  intros [= <-]. do 4 eexists. split; [reflexivity|].
  apply andb_prop in Hrange. destruct Hrange as [H0 H32].
  apply Z.leb_le in H0. apply Z.ltb_lt in H32.
  cbn [Spec.u32be]. rewrite !unsigned_of_Z_mod, !Z.shiftr_div_pow2 by lia.
  f_equal.
  change (2 ^ 32) with 4294967296 in H32.
  change (2 ^ 24) with 16777216. change (2 ^ 16) with 65536.
  change (2 ^ 8) with 256.
  Z.div_mod_to_equations. lia.
Qed.

Lemma pack_III_reads_back (a b c : Z) (header : bytes) :
  Struct.pack_III a b c = Ok header ->
  len header = 12
  /\ Spec.u32be (firstn 4 header) = Some a
  /\ Spec.u32be (firstn 4 (skipn 4 header)) = Some b
  /\ Spec.u32be (skipn 8 header) = Some c.
Proof.
  unfold Struct.pack_III.
  destruct (Struct.pack_I a) as [ha|] eqn:Ha; [|discriminate].
  destruct (Struct.pack_I b) as [hb|] eqn:Hb; [|discriminate].
  destruct (Struct.pack_I c) as [hc|] eqn:Hc; [|discriminate].
  cbn [bind]. intros [= <-].
  apply pack_I_reads_back in Ha, Hb, Hc.
  destruct Ha as (a3 & a2 & a1 & a0 & -> & Ha).
  destruct Hb as (b3 & b2 & b1 & b0 & -> & Hb).
  destruct Hc as (c3 & c2 & c1 & c0 & -> & Hc).
  cbn [app firstn skipn]. repeat split; assumption.
Qed.

Section WithExternals.
Context {frame : Type} {ext : Externals frame}.
Implicit Type st : @RemoDesk.t frame.

(** The header announces the length of the bytes that follow it and
    the two components of [self.resolution]. *)
Lemma wire_frame_fields st (data w : bytes) :
  wire_frame st data = Ok w ->
  exists header payload width height rest,
    resolution st = Some (width :: height :: rest) /\
    w = header ++ payload /\
    len header = 12 /\
    Spec.u32be (firstn 4 header) = Some (len payload) /\
    Spec.u32be (firstn 4 (skipn 4 header)) = Some width /\
    Spec.u32be (skipn 8 header) = Some height.
Proof.
  unfold wire_frame.
  destruct (if compress2 st then _ else _) as [payload|]; [|discriminate].
  cbn [bind].
  destruct (resolution st) as [[|width [|height rest]]|];
    try discriminate.
  cbn [bind getitem nth_error].
  destruct (Struct.pack_III (len payload) width height) as [header|] eqn:Hp;
    [|discriminate].
  cbn [bind]. intros [= <-].
  apply pack_III_reads_back in Hp. destruct Hp as (H12 & Hl & Hw & Hh).
  exists header, payload, width, height, rest. auto 7.
Qed.

Lemma capture_body_wire_format st (g : grab) (w : bytes) st' :
  capture_body st g = (Ok (Some w), st') -> Spec.wire_format w.
Proof.
  unfold capture_body.
  destruct (_capture_screen st g) as [img st1].
  destruct (_detect_activity st1 img) as [[[|]|] st2]; try discriminate.
  destruct (fit_resolution st2 img) as [[image st3]|]; [|discriminate].
  destruct (_imagenc st3 image) as [data|]; [|discriminate].
  cbn [bind].
  destruct (wire_frame st3 data) as [w'|] eqn:Hw; [|discriminate].
  cbn [bind]. intros [= <- _].
  apply wire_frame_fields in Hw.
  destruct Hw as (header & payload & width & height & rest & _ & Hw).
  exists header, payload, width, height. exact Hw.
Qed.

(** C8.  Every frame [_capture] puts on the buffer is a header of
    twelve bytes, three unsigned 32-bit big-endian integers, followed
    by the payload, and the first integer is the exact length in bytes
    of the payload that follows. *)
Theorem capture_puts_wire_frames st (turns : list turn) :
  Forall Spec.wire_format (frames_put (_capture st turns)).
Proof.
  revert st. induction turns as [|[|g] turns IH]; intros st.
  - constructor.
  - constructor.
  - cbn [_capture].
    destruct (capture_body st g) as [[[w|]|e] st'] eqn:Hbody.
    + specialize (IH st').
      destruct (_capture st' turns) as [[put fin] st''].
      unfold frames_put in *. cbn [fst] in *.
      constructor; [|exact IH].
      exact (capture_body_wire_format st g w st' Hbody).
    + apply IH.
    + constructor.
Qed.

End WithExternals.

Import Sample.

(** Two turns on a 2-pixel screen: both frames are put, each with the
    header (6, 2, 1) before its six payload bytes. *)
Example capture_two_frames :
  frames_put
    (_capture (desk "jpeg" None None)
       [Active (Grabbed (white 2) [2; 1]); Active (Grabbed (black 2) [2; 1])])
  = [[Byte.x00; Byte.x00; Byte.x00; Byte.x06;
      Byte.x00; Byte.x00; Byte.x00; Byte.x02;
      Byte.x00; Byte.x00; Byte.x00; Byte.x01;
      Byte.xff; Byte.xff; Byte.xff; Byte.xff; Byte.xff; Byte.xff];
     [Byte.x00; Byte.x00; Byte.x00; Byte.x06;
      Byte.x00; Byte.x00; Byte.x00; Byte.x02;
      Byte.x00; Byte.x00; Byte.x00; Byte.x01;
      Byte.x00; Byte.x00; Byte.x00; Byte.x00; Byte.x00; Byte.x00]].
Proof. vm_compute. reflexivity. Qed.

End WireFacts.

(** ** Encoding failures in [_capture] *)

Module EncodeFacts.
Import RemoDesk.

Section WithExternals.
Context {frame : Type} {ext : Externals frame}.
Implicit Type st : @RemoDesk.t frame.

(** A format outside jpeg, webp and avif makes [_imagenc] raise
    [TypeError]. *)
Lemma imagenc_unsupported_format st (image : frame) :
  String.eqb (format st) "webp" = false ->
  String.eqb (format st) "jpeg" = false ->
  String.eqb (format st) "avif" = false ->
  _imagenc st image = Raise TypeError.
Proof. intros H1 H2 H3. unfold _imagenc. rewrite H1, H2, H3. reflexivity. Qed.

(** A codec that reports failure makes [_imagenc] raise [ValueError]. *)
Lemma imagenc_codec_failure st (image : frame) (e : string) (buffer : bytes) :
  (format st = "webp" /\ e = ".webp" \/ format st = "jpeg" /\ e = ".jpeg"
   \/ format st = "avif" /\ e = ".avif")%string ->
  cv2_imencode e image (quality st) = Ok (false, buffer) ->
  _imagenc st image = Raise ValueError.
Proof.
  intros [[Hf ->]|[[Hf ->]|[Hf ->]]] Henc; unfold _imagenc;
    rewrite Hf; cbn; rewrite Henc; reflexivity.
Qed.

(** C4, as amended.  When, in a turn of the capture loop, the frame
    passes the activity gate and [_imagenc] raises, the exception
    leaves [_capture]: no frame is put on the buffer for that turn, and
    no later turn runs, whatever would have been captured then. *)
Theorem encode_failure_ends_capture st (g : grab) (turns : list turn)
    (screen_image image : frame) st1 st2 st3 (e : pyexn) :
  _capture_screen st g = (screen_image, st1) ->
  _detect_activity st1 screen_image = (Ok true, st2) ->
  fit_resolution st2 screen_image = Ok (image, st3) ->
  _imagenc st3 image = Raise e ->
  capture_body st g = (Raise e, st3)
  /\ _capture st (Active g :: turns) = ([], Died e, st3).
Proof.
  intros Hcap Hact Hfit Henc.
  assert (Hbody : capture_body st g = (Raise e, st3)).
  { unfold capture_body. rewrite Hcap, Hact, Hfit, Henc. reflexivity. }
  split; [exact Hbody|]. cbn [_capture]. rewrite Hbody. reflexivity.
Qed.

End WithExternals.

Import Sample.

Lemma encode_failure_ends_capture_witness :
  capture_body (desk "jpeg" None None) (Grabbed grey1 [1; 1])
  = (Raise ValueError,
     set_resolution (set_screensize (desk "jpeg" None None) [1; 1]) [1; 1])
  /\ _capture (desk "jpeg" None None)
       [Active (Grabbed grey1 [1; 1]); Active (Grabbed (white 1) [1; 1])]
     = ([], Died ValueError,
        set_resolution (set_screensize (desk "jpeg" None None) [1; 1]) [1; 1]).
Proof.
  apply (encode_failure_ends_capture (desk "jpeg" None None)
           (Grabbed grey1 [1; 1]) [Active (Grabbed (white 1) [1; 1])]
           grey1 grey1
           (set_screensize (desk "jpeg" None None) [1; 1])
           (set_screensize (desk "jpeg" None None) [1; 1])
           (set_resolution (set_screensize (desk "jpeg" None None) [1; 1]) [1; 1])
           ValueError); reflexivity.
Defined.

(** C4 as stated fails.  The codec reports failure on the first picture
    and would encode the second; the loop does not go on to it: the
    exception ends [_capture] and nothing is put.  An unsupported format
    ends it in the same way. *)
Lemma encode_failure_is_not_skipped :
  _imagenc (set_screensize (desk "jpeg" None None) [1; 1]) grey1
    = Raise ValueError
  /\ frames_put
       (_capture (desk "jpeg" None None) [Active (Grabbed (white 1) [1; 1])])
     = [[Byte.x00; Byte.x00; Byte.x00; Byte.x03;
         Byte.x00; Byte.x00; Byte.x00; Byte.x01;
         Byte.x00; Byte.x00; Byte.x00; Byte.x01;
         Byte.xff; Byte.xff; Byte.xff]]
  /\ frames_put
       (_capture (desk "jpeg" None None)
          [Active (Grabbed grey1 [1; 1]); Active (Grabbed (white 1) [1; 1])])
     = []
  /\ end_of
       (_capture (desk "jpeg" None None)
          [Active (Grabbed grey1 [1; 1]); Active (Grabbed (white 1) [1; 1])])
     = Died ValueError
  /\ end_of
       (_capture (desk "png" None None)
          [Active (Grabbed (white 1) [1; 1]); Active (Grabbed (white 1) [1; 1])])
     = Died TypeError.
Proof. vm_compute. repeat split. Qed.

End EncodeFacts.

(** ** The fan-out pass of the broadcaster *)

Module FanOutFacts.
Import Protocol.

Lemma viewer_eqb_eq (a b : viewer) : viewer_eqb a b = true <-> a = b.
Proof.
  unfold viewer_eqb. destruct a as [c1 i1 h1], b as [c2 i2 h2]. cbn.
  rewrite !andb_true_iff, !Nat.eqb_eq, Z.eqb_eq. split.
  - intros [[-> ->] ->]. reflexivity.
  - intros [= -> -> ->]. auto.
Qed.

Lemma viewer_eqb_refl (a : viewer) : viewer_eqb a a = true.
Proof. apply viewer_eqb_eq. reflexivity. Qed.

Lemma length_list_remove (x : viewer) (l : list viewer) :
  (List.length (list_remove x l) <= List.length l)%nat.
Proof.
  induction l as [|y l IH]; cbn; [lia|].
  destruct (viewer_eqb y x); cbn; lia.
Qed.

(** The pass ends: the index moves on at every turn and the list never
    grows. *)
Lemma for_iclient_total (sendall : viewer -> bool) (fuel : nat) :
  forall (i : nat) (p : pass),
    (List.length (registry p) - i <= fuel)%nat ->
    exists p', for_iclient fuel sendall i p = Some p'.
Proof.
  induction fuel as [|fuel IH]; intros i p Hfuel.
  - cbn. destruct (nth_error (registry p) i) eqn:E; [|eauto].
    assert (i < List.length (registry p))%nat
      by (apply nth_error_Some; congruence).
    lia.
  - cbn. destruct (nth_error (registry p) i) as [v|] eqn:E; [|eauto].
    assert (i < List.length (registry p))%nat
      by (apply nth_error_Some; congruence).
    destruct (sendall v); apply IH; cbn; [lia|].
    pose proof (length_list_remove v (registry p)). lia.
Qed.

Lemma fan_out_total (sendall : viewer -> bool) (l : list viewer) :
  exists r, fan_out sendall l = Some r.
Proof. apply for_iclient_total. cbn. lia. Qed.

(** Removing the entry under the iterator shifts the rest of the list
    one place to the left: what used to come two places further on is
    now next. *)
Lemma skipn_list_remove (v : viewer) (l : list viewer) :
  forall i, nth_error l i = Some v ->
    skipn (S i) (list_remove v l) = skipn (S (S i)) l.
Proof.
  induction l as [|y l IH]; intros i Hi.
  - destruct i; discriminate.
  - cbn [list_remove]. destruct (viewer_eqb y v) eqn:E.
    + reflexivity.
    + destruct i as [|i].
      * cbn in Hi. injection Hi as ->. rewrite viewer_eqb_refl in E.
        discriminate.
      * cbn in Hi. change (skipn (S i) (list_remove v l) = skipn (S (S i)) l).
        exact (IH i Hi).
Qed.

Lemma in_skipn {A : Type} (x : A) (n : nat) (l : list A) :
  In x (skipn n l) -> In x l.
Proof.
  intros H. rewrite <- (firstn_skipn n l). apply in_or_app. now right.
Qed.

Lemma in_skipn_S {A : Type} (x : A) (n : nat) (l : list A) :
  In x (skipn (S n) l) -> In x (skipn n l).
Proof.
  revert l. induction n as [|n IH]; intros [|y l] H.
  - destruct H.
  - right. exact H.
  - destruct H.
  - change (In x (skipn n l)). apply IH. exact H.
Qed.

Lemma nth_error_in_skipn {A : Type} (x : A) (n : nat) (l : list A) :
  nth_error l n = Some x -> In x (skipn n l).
Proof.
  revert l. induction n as [|n IH]; intros [|y l] H; cbn in *;
    try discriminate; [injection H as ->; now left | auto].
Qed.

(** A pass from index [i] on sends to, and closes, only entries that
    stand at index [i] or later. *)
Lemma for_iclient_visits_suffix (sendall : viewer -> bool) (fuel : nat) :
  forall (i : nat) (p p' : pass),
    for_iclient fuel sendall i p = Some p' ->
    forall x,
      (In x (delivered p') -> In x (delivered p) \/ In x (skipn i (registry p)))
      /\ (In x (closed p') -> In x (closed p) \/ In x (skipn i (registry p))).
Proof.
  induction fuel as [|fuel IH]; intros i p p' Hrun x.
  - cbn in Hrun. destruct (nth_error (registry p) i); [discriminate|].
    injection Hrun as <-. auto.
  - cbn in Hrun. destruct (nth_error (registry p) i) as [v|] eqn:E.
    2:{ injection Hrun as <-. auto. }
    destruct (sendall v).
    + destruct (IH _ _ _ Hrun x) as [Hd Hc].
      cbn [registry delivered closed] in Hd, Hc. split.
      * intros Hx. destruct (Hd Hx) as [H|H].
        -- apply in_app_or in H. destruct H as [H|[<-|[]]]; auto.
           right. now apply nth_error_in_skipn.
        -- right. now apply in_skipn_S.
      * intros Hx. destruct (Hc Hx) as [H|H]; auto.
        right. now apply in_skipn_S.
    + destruct (IH _ _ _ Hrun x) as [Hd Hc].
      cbn [registry delivered closed] in Hd, Hc.
      rewrite (skipn_list_remove v (registry p) i E) in Hd, Hc. split.
      * intros Hx. destruct (Hd Hx) as [H|H]; auto.
        right. now apply in_skipn_S, in_skipn_S.
      * intros Hx. destruct (Hc Hx) as [H|H].
        -- apply in_app_or in H. destruct H as [H|[<-|[]]]; auto.
           right. now apply nth_error_in_skipn.
        -- right. now apply in_skipn_S, in_skipn_S.
Qed.

Lemma for_iclient_raises (sendall : viewer -> bool) (fuel i : nat)
    (p : pass) (v : viewer) :
  nth_error (registry p) i = Some v -> sendall v = false ->
  for_iclient (S fuel) sendall i p
  = for_iclient fuel sendall (S i)
      {| registry := list_remove v (registry p);
         delivered := delivered p;
         closed := closed p ++ [v] |}.
Proof. intros Hn Hs. cbn [for_iclient]. rewrite Hn, Hs. reflexivity. Qed.

Lemma in_list_remove (x v : viewer) (l : list viewer) :
  In x l -> x <> v -> In x (list_remove v l).
Proof.
  induction l as [|y l IH]; intros Hin Hne; [destruct Hin|].
  cbn [list_remove]. destruct (viewer_eqb y v) eqn:E.
  - apply viewer_eqb_eq in E. subst y.
    destruct Hin as [->|Hin]; [contradiction|exact Hin].
  - destruct Hin as [->|Hin]; [now left|right; auto].
Qed.

(** A pass takes out of the registry only viewers it closes. *)
Lemma for_iclient_keeps_or_closes (sendall : viewer -> bool) (fuel : nat) :
  forall (i : nat) (p p' : pass),
    for_iclient fuel sendall i p = Some p' ->
    forall x,
      (In x (closed p) -> In x (closed p'))
      /\ (In x (registry p) -> In x (registry p') \/ In x (closed p')).
Proof.
  induction fuel as [|fuel IH]; intros i p p' Hrun x.
  - cbn in Hrun. destruct (nth_error (registry p) i); [discriminate|].
    injection Hrun as <-. auto.
  - cbn in Hrun. destruct (nth_error (registry p) i) as [v|] eqn:E.
    2:{ injection Hrun as <-. auto. }
    destruct (sendall v).
    + destruct (IH _ _ _ Hrun x) as [Hc Hr].
      cbn [registry delivered closed] in Hc, Hr. auto.
    + destruct (IH _ _ _ Hrun x) as [Hc Hr].
      cbn [registry delivered closed] in Hc, Hr. split.
      * intros Hx. apply Hc, in_or_app. now left.
      * intros Hx. destruct (viewer_eqb x v) eqn:Exv.
        -- apply viewer_eqb_eq in Exv. subst x.
           right. apply Hc, in_or_app. right. now left.
        -- apply Hr, in_list_remove; [exact Hx|].
           intros ->. rewrite viewer_eqb_refl in Exv. discriminate.
Qed.

(** C1, on the code.  Whenever [sendall] raises for a viewer [v], the
    viewer [w] registered right behind it is passed over in that pass:
    [v] is closed and removed after its one failed send, but [w], which
    was registered when the frame was taken and stays registered, gets no
    frame (and is not closed either, should its own channel be broken).
    Removing the entry under the list iterator moves [w] into the place
    the iterator has just left. *)
Theorem fan_out_skips_viewer_behind_failure (sendall : viewer -> bool)
    (v w : viewer) (l : list viewer) :
  sendall v = false -> w <> v -> ~ In w l ->
  exists r,
    fan_out sendall (v :: w :: l) = Some r
    /\ In v (closed r)
    /\ In w (registry r)
    /\ ~ In w (delivered r)
    /\ ~ In w (closed r).
Proof.
  intros Hv Hwv Hw.
  destruct (fan_out_total sendall (v :: w :: l)) as [r Hrun].
  exists r. split; [exact Hrun|].
  unfold fan_out in Hrun.
  change (List.length (v :: w :: l)) with (S (List.length (w :: l))) in Hrun.
  rewrite (for_iclient_raises sendall _ 0
             {| registry := v :: w :: l; delivered := []; closed := [] |}
             v eq_refl Hv) in Hrun.
  cbn [registry delivered closed list_remove app] in Hrun.
  rewrite viewer_eqb_refl in Hrun.
  destruct (for_iclient_visits_suffix sendall _ _ _ _ Hrun w) as [Hd Hc].
  destruct (for_iclient_keeps_or_closes sendall _ _ _ _ Hrun v) as [Hcv _].
  destruct (for_iclient_keeps_or_closes sendall _ _ _ _ Hrun w) as [_ Hrw].
  cbn in Hd, Hc, Hcv, Hrw.
  assert (Hnc : ~ In w (closed r)).
  { intros H. destruct (Hc H) as [[E|[]]|H']; [now apply Hwv|now apply Hw]. }
  repeat split.
  - apply Hcv. now left.
  - destruct Hrw as [H|H]; [now left|exact H|contradiction].
  - intros H. destruct (Hd H) as [[]|H']. now apply Hw.
  - exact Hnc.
Qed.

Import Sample.

Example fan_out_all_well :
  fan_out all_well [viewer1; viewer2; viewer3]
  = Some {| registry := [viewer1; viewer2; viewer3];
            delivered := [viewer1; viewer2; viewer3];
            closed := [] |}.
Proof. reflexivity. Qed.

(** Three viewers are registered and only the channel of the first
    raises.  The pass removes the first viewer and the third gets the
    frame; the second, registered and healthy, gets nothing. *)
Example fan_out_first_broken :
  fan_out viewer1_broken [viewer1; viewer2; viewer3]
  = Some {| registry := [viewer2; viewer3];
            delivered := [viewer3];
            closed := [viewer1] |}.
Proof. reflexivity. Qed.

(** When every channel raises, one pass closes every other viewer
    only. *)
Example fan_out_all_broken :
  fan_out all_broken [viewer1; viewer2; viewer3]
  = Some {| registry := [viewer2];
            delivered := [];
            closed := [viewer1; viewer3] |}.
Proof. reflexivity. Qed.

Lemma fan_out_skips_viewer_behind_failure_witness :
  exists r,
    fan_out viewer1_broken [viewer1; viewer2; viewer3] = Some r
    /\ In viewer1 (closed r)
    /\ In viewer2 (registry r)
    /\ ~ In viewer2 (delivered r)
    /\ ~ In viewer2 (closed r).
Proof.
  apply (fan_out_skips_viewer_behind_failure viewer1_broken
           viewer1 viewer2 [viewer3]).
  - reflexivity.
  - discriminate.
  - intros [H|[]]. discriminate H.
Defined.

End FanOutFacts.

(** ** The session: the pipeline and the registry *)

Module SessionFacts.
Import Protocol Session.

Lemma is_empty_app (l : list viewer) (v : viewer) :
  is_empty (l ++ [v]) = false.
Proof. destruct l; reflexivity. Qed.

Lemma consistent_init : consistent init.
Proof. repeat split. Qed.

(** A turn of the broadcaster that finds the registry empty afterwards
    puts the three attributes back to what [__init__] sets. *)
Lemma turn_to_idle (p p' : Protocol.t) (sendall : viewer -> bool)
    (r : pass) :
  _handle_client_turn p sendall = Some (p', r, true) ->
  p' = Protocol.__init__ /\ registry r = [].
Proof.
  unfold _handle_client_turn.
  destruct (fan_out sendall (listclient p)) as [r'|]; [|discriminate].
  destruct (registry r') eqn:E; intros [= <- <-]; auto.
Qed.

Lemma turn_stays_active (p p' : Protocol.t) (sendall : viewer -> bool)
    (r : pass) :
  _handle_client_turn p sendall = Some (p', r, false) ->
  listclient p' = registry r /\ registry r <> []
  /\ first p' = first p /\ running p' = running p.
Proof.
  unfold _handle_client_turn.
  destruct (fan_out sendall (listclient p)) as [r'|]; [|discriminate].
  destruct (registry r') eqn:E; intros [= <- <-]; cbn.
  rewrite E. repeat split. discriminate.
Qed.

Lemma step_consistent (s : Session.t) (e : event) :
  consistent s -> consistent (step s e).
Proof.
  intros (Hrun & Hfirst & Halive). destruct e as [client src|sendall].
  - cbn [step]. unfold handle_new_client.
    destruct (match src with
              | Direct id channel => Some (id, channel)
              | Opened (Some id) (Some channel) => Some (id, channel)
              | Opened _ _ => None
              end) as [[id channel]|].
    2:{ cbn. rewrite Nat.add_0_r. repeat split; assumption. }
    destruct (first (proto s)) eqn:Ef.
    + unfold consistent. cbn. rewrite is_empty_app.
      rewrite <- Hfirst in Hrun. cbn in Hrun.
      rewrite Hrun in Halive. rewrite Halive. repeat split.
    + unfold consistent. cbn. rewrite is_empty_app.
      rewrite <- Hfirst in Hrun. cbn in Hrun.
      rewrite Hrun in *. rewrite Nat.add_0_r. repeat split; assumption.
  - cbn [step].
    destruct (running (proto s) && negb (Nat.eqb (broadcasters_alive s) 0))
      eqn:Eg; [|repeat split; assumption].
    apply andb_prop in Eg. destruct Eg as [Er _].
    destruct (_handle_client_turn (proto s) sendall) as [[[p' r] gone]|] eqn:Et;
      [|repeat split; assumption].
    destruct gone.
    + apply turn_to_idle in Et. destruct Et as [-> _].
      unfold consistent. cbn. rewrite Halive, Er. repeat split.
    + apply turn_stays_active in Et.
      destruct Et as (Hl & Hne & Hf & Hr).
      unfold consistent. cbn. rewrite Hl, Hf, Hr.
      assert (is_empty (registry r) = false) as E
        by (destruct (registry r); [contradiction|reflexivity]).
      rewrite E, Er. rewrite Er in Halive, Hrun.
      rewrite Hfirst. destruct (is_empty (listclient (proto s)));
        [discriminate|]. repeat split. exact Halive.
Qed.

Lemma run_consistent (tr : list event) :
  forall s, consistent s -> consistent (run s tr).
Proof.
  induction tr as [|e tr IH]; intros s Hs; [exact Hs|].
  cbn. apply IH, step_consistent, Hs.
Qed.

(** One step starts a broadcaster and a producer exactly when it takes
    the registry from empty to non-empty. *)
Lemma step_starts (s : Session.t) (e : event) :
  consistent s ->
  let edge := (if is_empty (listclient (proto s))
                  && negb (is_empty (listclient (proto (step s e))))
               then 1 else 0)%nat in
  broadcasters_started (step s e) = (broadcasters_started s + edge)%nat
  /\ producers_started (step s e) = (producers_started s + edge)%nat.
Proof.
  intros (Hrun & Hfirst & Halive). destruct e as [client src|sendall].
  - cbn [step]. unfold handle_new_client.
    destruct (match src with
              | Direct id channel => Some (id, channel)
              | Opened (Some id) (Some channel) => Some (id, channel)
              | Opened _ _ => None
              end) as [[id channel]|].
    2:{ cbn. destruct (is_empty (listclient (proto s))); cbn; auto. }
    destruct (first (proto s)) eqn:Ef; cbn; rewrite is_empty_app;
      rewrite <- Hfirst; cbn; auto.
  - cbn [step].
    destruct (running (proto s) && negb (Nat.eqb (broadcasters_alive s) 0))
      eqn:Eg.
    + apply andb_prop in Eg. destruct Eg as [Er _].
      rewrite Er in Hrun.
      assert (is_empty (listclient (proto s)) = false) as E
        by (destruct (is_empty (listclient (proto s))); [discriminate|reflexivity]).
      rewrite E.
      destruct (_handle_client_turn (proto s) sendall) as [[[p' r] gone]|];
        cbn; auto.
    + cbn. destruct (is_empty (listclient (proto s))); cbn; auto.
Qed.

Lemma run_starts (tr : list event) :
  forall s, consistent s ->
    broadcasters_started (run s tr) = (broadcasters_started s + edges s tr)%nat
    /\ producers_started (run s tr) = (producers_started s + edges s tr)%nat.
Proof.
  induction tr as [|e tr IH]; intros s Hs.
  - cbn. rewrite !Nat.add_0_r. auto.
  - cbn [run fold_left edges].
    destruct (IH (step s e) (step_consistent s e Hs)) as [Hb Hp].
    destruct (step_starts s e Hs) as [Hb1 Hp1].
    unfold run in Hb, Hp. rewrite Hb, Hp, Hb1, Hp1. lia.
Qed.

(** C2.  After every sequence of attaches and broadcaster turns, the
    pipeline is running iff the registry is non-empty: [running] is set
    exactly then, [first] is its negation, exactly one broadcaster thread
    is alive while it is set and none otherwise, and the broadcasters and
    producers started so far are as many as the empty-to-non-empty edges
    of the registry.  An attach while the pipeline runs starts a command
    thread only; an attach while it is idle starts one broadcaster and
    one producer.  A broadcaster turn that leaves the registry empty puts
    [running] to [False] and [first] to [True] and ends the thread. *)
Theorem pipeline_runs_iff_registry_nonempty (tr : list event) :
  let s := run init tr in
  (running (proto s) = true <-> listclient (proto s) <> [])
  /\ first (proto s) = negb (running (proto s))
  /\ broadcasters_alive s = (if running (proto s) then 1 else 0)%nat
  /\ broadcasters_started s = edges init tr
  /\ producers_started s = edges init tr
  /\ (forall client id channel,
        snd (handle_new_client (proto s) client (Direct id channel))
        = if running (proto s)
          then [Thread_handle_client_commands client id]
          else [Thread_handle_client; Call_init;
                Thread_handle_client_commands client id])
  /\ (forall sendall,
        exists p' r gone,
          _handle_client_turn (proto s) sendall = Some (p', r, gone)
          /\ gone = is_empty (registry r)
          /\ running p' = (running (proto s) && negb gone)%bool
          /\ first p' = (first (proto s) || gone)%bool).
Proof.
  intros s.
  destruct (run_consistent tr init consistent_init) as (Hrun & Hfirst & Halive).
  destruct (run_starts tr init consistent_init) as [Hb Hp].
  fold s in Hrun, Hfirst, Halive, Hb, Hp. cbn in Hb, Hp.
  repeat split.
  - intros Hr E. rewrite E, Hr in Hrun. discriminate.
  - intros Hne. rewrite Hrun.
    destruct (listclient (proto s)); [contradiction|reflexivity].
  - rewrite Hrun, Hfirst. now rewrite negb_involutive.
  - exact Halive.
  - exact Hb.
  - exact Hp.
  - intros client id channel. unfold handle_new_client.
    rewrite Hfirst, Hrun.
    destruct (is_empty (listclient (proto s))); reflexivity.
  - intros sendall. unfold _handle_client_turn.
    destruct (FanOutFacts.fan_out_total sendall (listclient (proto s)))
      as [r ->].
    destruct (registry r) eqn:E.
    + do 3 eexists. split; [reflexivity|]. rewrite E. cbn.
      rewrite andb_false_r, orb_true_r. auto.
    + do 3 eexists. split; [reflexivity|]. rewrite E. cbn.
      rewrite andb_true_r, orb_false_r. auto.
Qed.

Import Sample.

(** The scenario of the specification.  The second viewer is still there
    after the first frame that meets broken channels; the next one
    removes it. *)
Example scenario_history :
  map (fun n => let s := run init (firstn n scenario) in
                (List.length (listclient (proto s)), running (proto s),
                 broadcasters_alive s, producers_started s))
    (seq 0 7)
  = [(0, false, 0, 0); (1, true, 1, 1); (2, true, 1, 1); (2, true, 1, 1);
     (1, true, 1, 1); (0, false, 0, 1); (1, true, 1, 2)]%nat.
Proof. reflexivity. Qed.

End SessionFacts.

(** ** The command loop *)

Module CommandFacts.
Import Socket ReceiveExact CommandChannel.

(** Every read that brings bytes takes something off what is pending. *)
Lemma receive_loop_pending (fuel : nat) :
  forall (n : Z) (data : bytes) (s s' : Socket.t) (r : result (option bytes)),
    receive_loop fuel n data s = Some (r, s') ->
    (pending s' <= pending s)%nat
    /\ (forall d, r = Ok (Some d) -> len data < n ->
                  (pending s' < pending s)%nat).
Proof.
  induction fuel as [|fuel IH]; intros n data s s' r Hrun.
  - cbn in Hrun. destruct (Z.ltb_spec (len data) n); [discriminate|].
    injection Hrun as <- <-. split; [lia|]. intros; lia.
  - cbn [receive_loop] in Hrun.
    destruct (Z.ltb_spec (len data) n) as [Hlt|Hge].
    2:{ injection Hrun as <- <-. split; [lia|]. intros; lia. }
    destruct s as [|[bs|] s0]; cbn [recv] in Hrun.
    + injection Hrun as <- <-. split; [lia|]. discriminate.
    + destruct (Z.leb_spec (len bs) (n - len data)) as [Hfit|Hbig].
      * destruct bs as [|b bs'].
        -- injection Hrun as <- <-. cbn. split; [lia|]. discriminate.
        -- apply IH in Hrun. destruct Hrun as [Hle _]. cbn [pending].
           split; [lia|]. intros; lia.
      * destruct (firstn (Z.to_nat (n - len data)) bs) as [|p ps] eqn:Hf.
        { destruct bs as [|b bs'].
          - unfold len in *. cbn in Hbig. lia.
          - destruct (Z.to_nat (n - len data)) eqn:Hk; [lia|discriminate]. }
        apply IH in Hrun. destruct Hrun as [Hle _]. cbn [pending] in *.
        rewrite length_skipn in Hle.
        assert (0 < Z.to_nat (n - len data))%nat by lia.
        assert (Z.to_nat (n - len data) < List.length bs)%nat
          by (unfold len in *; lia).
        split; [lia|]. intros; lia.
    + injection Hrun as <- <-. cbn. split; [lia|]. discriminate.
Qed.

Lemma unpack_I_nonneg (b : bytes) (n : Z) :
  Struct.unpack_I b = Ok n -> 0 <= n /\ b <> [].
Proof.
  destruct b as [|b3 [|b2 [|b1 [|b0 [|]]]]]; try discriminate.
  cbn. intros [= <-].
  pose proof (byte.unsigned_range b3). pose proof (byte.unsigned_range b2).
  pose proof (byte.unsigned_range b1). pose proof (byte.unsigned_range b0).
  split; [lia|discriminate].
Qed.

Section Loop.
Variable loads : bytes -> result pyval.
Variable handle : pyval -> result (list RemoDesk.injection).

(** A turn of the loop ends, and one that goes round again has read a
    length prefix. *)
Lemma loop_body_total (s : Socket.t) :
  exists b s', loop_body loads handle s = Some (b, s')
    /\ (pending s' <= pending s)%nat
    /\ (forall done, b = Next done -> (pending s' < pending s)%nat).
Proof.
  unfold loop_body.
  destruct (ReceiveExactFacts.receive_exact_total s 4 ltac:(lia))
    as (r & s1 & Hr).
  rewrite Hr. unfold _receive_exact in Hr.
  apply receive_loop_pending in Hr. destruct Hr as [Hle Hlt].
  destruct r as [[[|b0 p]|]|e].
  - eexists _, _. split; [reflexivity|]. split; [lia|]. discriminate.
  - specialize (Hlt _ eq_refl ltac:(unfold len; cbn; lia)).
    destruct (Struct.unpack_I (b0 :: p)) as [n|e] eqn:Hn.
    2:{ eexists _, _. split; [reflexivity|]. split; [lia|].
        unfold inner_except. destruct (is_socket_error e); discriminate. }
    apply unpack_I_nonneg in Hn. destruct Hn as [Hn _].
    destruct (ReceiveExactFacts.receive_exact_total s1 n Hn)
      as (r2 & s2 & Hr2).
    rewrite Hr2. unfold _receive_exact in Hr2.
    apply receive_loop_pending in Hr2. destruct Hr2 as [Hle2 _].
    destruct r2 as [d|e]; eexists _, _; (split; [reflexivity|]);
      (split; [lia|]); intros; lia.
  - eexists _, _. split; [reflexivity|]. split; [lia|]. discriminate.
  - eexists _, _. split; [reflexivity|]. split; [lia|].
    unfold inner_except. destruct (is_socket_error e); discriminate.
Qed.

Lemma command_loop_total (fuel : nat) :
  forall s, (pending s < fuel)%nat ->
    exists r, command_loop loads handle fuel s = Some r.
Proof.
  induction fuel as [|fuel IH]; intros s Hfuel; [lia|].
  cbn [command_loop].
  destruct (loop_body_total s) as (b & s' & -> & Hle & Hlt).
  destruct b as [done| | |e]; eauto.
  specialize (Hlt done eq_refl).
  destruct (IH s' ltac:(lia)) as [r ->]. eauto.
Qed.

(** [_handle_client_commands] returns on every finite stream. *)
Lemma handle_client_commands_returns (s : Socket.t) :
  exists r, _handle_client_commands loads handle s = Some r.
Proof. apply command_loop_total. lia. Qed.

(** C3, as amended.  When a message has a well-formed length prefix
    and its body is not a valid command (unpickling raises, or the
    dispatch of the unpickled command raises: a missing field, a failing
    injection), nothing past [_handle_client_commands] is raised, but the
    loop does not go on: it ends there, leaving what follows on the
    socket unread.  The error is logged by the handler around the
    loop, unless it is an [OSError], which the inner handler swallows
    without a log. *)
Theorem invalid_command_ends_loop (s s1 s2 : Socket.t)
    (prefix body : bytes) (n : Z) (e : pyexn) (fuel : nat) :
  _receive_exact s 4 = Some (Ok (Some prefix), s1) ->
  Struct.unpack_I prefix = Ok n ->
  _receive_exact s1 n = Some (Ok (Some body), s2) ->
  loads body = Raise e
  \/ (exists command, loads body = Ok command
                      /\ PyVal.truthy command = true
                      /\ handle command = Raise e) ->
  command_loop loads handle (S fuel) s
  = Some {| injected := [];
            ending := if is_socket_error e then Socket_error else Logged e;
            unread := s2 |}.
Proof.
  intros Hprefix Hn Hbody Hbad.
  assert (Hturn : loop_body loads handle s = Some (inner_except e, s2)).
  { unfold loop_body. rewrite Hprefix.
    destruct prefix as [|b0 p];
      [apply unpack_I_nonneg in Hn; destruct Hn as [_ []]; reflexivity|].
    rewrite Hn, Hbody.
    destruct Hbad as [-> | (command & -> & Ht & Hh)]; cbn [bind].
    - reflexivity.
    - rewrite Ht, Hh. reflexivity. }
  cbn [command_loop]. rewrite Hturn. unfold inner_except.
  destruct (is_socket_error e); reflexivity.
Qed.

End Loop.

(** What makes the dispatch of [RemoDesk] raise. *)
Section Dispatch.
Context {frame : Type}.
Variable inject : RemoDesk.injection -> result unit.
Variable st : @RemoDesk.t frame.

Lemma dispatch_missing_action (items : list (string * pyval)) :
  PyVal.lookup "action" items = None ->
  RemoDesk.handle_commands inject st (PyDict items) = Raise KeyError.
Proof.
  intros H. unfold RemoDesk.handle_commands. cbn. rewrite H. reflexivity.
Qed.

Lemma dispatch_missing_data (items : list (string * pyval)) (action : pyval) :
  PyVal.lookup "action" items = Some action ->
  PyVal.lookup "data" items = None ->
  RemoDesk.handle_commands inject st (PyDict items) = Raise KeyError.
Proof.
  intros Ha Hd. unfold RemoDesk.handle_commands. cbn.
  rewrite Ha. cbn. rewrite Hd. reflexivity.
Qed.

Lemma dispatch_injection_raises (key : pyval) (e : pyexn) :
  inject (RemoDesk.Keyboard_press key) = Raise e ->
  RemoDesk.handle_commands inject st
    (PyDict [("action", PyStr "keyboard");
             ("data", PyDict [("key", key); ("state", PyStr "down")])]%string)
  = Raise e.
Proof.
  intros H. unfold RemoDesk.handle_commands. cbn.
  unfold RemoDesk.perform. rewrite H. reflexivity.
Qed.

End Dispatch.

Import Sample.

Example move_command_dispatched :
  _handle_client_commands loads dispatch [Chunk (message [Byte.x01])]
  = Some {| injected := [RemoDesk.Mouse_move 960 540];
            ending := Closed; unread := [] |}.
Proof. vm_compute. reflexivity. Qed.

Lemma invalid_command_ends_loop_witness :
  command_loop loads dispatch (S 0) garbled_then_move
  = Some {| injected := [];
            ending := if is_socket_error UnpicklingError
                      then Socket_error else Logged UnpicklingError;
            unread := [Chunk (message [Byte.x01])] |}.
Proof.
  apply (invalid_command_ends_loop loads dispatch garbled_then_move
           [Chunk ([Byte.x00] ++ message [Byte.x01])]
           [Chunk (message [Byte.x01])]
           [Byte.x00; Byte.x00; Byte.x00; Byte.x01] [Byte.x00] 1
           UnpicklingError 0).
  - vm_compute. reflexivity.
  - vm_compute. reflexivity.
  - vm_compute. reflexivity.
  - left. reflexivity.
Defined.

(** C3 as stated fails.  A message with a well-formed prefix whose body
    is not a pickle is followed by a valid move command.  The loop does
    not read the move command: it ends with the error logged, and the
    command stays unread on the socket.  The same happens for a command
    without its data field, and for an injection that raises. *)
Lemma invalid_command_is_not_skipped :
  _handle_client_commands loads dispatch garbled_then_move
    = Some {| injected := []; ending := Logged UnpicklingError;
              unread := [Chunk (message [Byte.x01])] |}
  /\ _handle_client_commands loads dispatch
       [Chunk (message [Byte.x03] ++ message [Byte.x01])]
     = Some {| injected := []; ending := Logged KeyError;
               unread := [Chunk (message [Byte.x01])] |}
  /\ _handle_client_commands loads
       (RemoDesk.handle_commands (inject_raising ValueError)
          (captured (desk "jpeg" None None)))
       [Chunk (message [Byte.x02] ++ message [Byte.x01])]
     = Some {| injected := []; ending := Logged ValueError;
               unread := [Chunk (message [Byte.x01])] |}.
Proof. vm_compute. repeat split. Qed.

End CommandFacts.

(** * Further properties *)

(** ** More on the fan-out pass *)

Module FanOutMore.
Import Protocol FanOutFacts.

Lemma skipn_nth_error {A : Type} (l : list A) :
  forall i x, nth_error l i = Some x -> skipn i l = x :: skipn (S i) l.
Proof.
  induction l as [|y l IH]; intros [|i] x H; try discriminate.
  - injection H as ->. reflexivity.
  - cbn in H. change (skipn i l = x :: skipn (S i) l). exact (IH i x H).
Qed.

Lemma skipn_nth_error_none {A : Type} (l : list A) (i : nat) :
  nth_error l i = None -> skipn i l = [].
Proof. intros H. apply skipn_all2. now apply nth_error_None. Qed.

Lemma in_of_list_remove (x v : viewer) (l : list viewer) :
  In x (list_remove v l) -> In x l.
Proof.
  induction l as [|y l IH]; cbn; [auto|].
  destruct (viewer_eqb y v); cbn; intuition.
Qed.

Lemma list_remove_perm (v : viewer) (l : list viewer) :
  In v l -> Permutation l (v :: list_remove v l).
Proof.
  induction l as [|y l IH]; intros Hin; [destruct Hin|].
  cbn [list_remove]. destruct (viewer_eqb y v) eqn:E.
  - apply viewer_eqb_eq in E. subst y. apply Permutation_refl.
  - destruct Hin as [->|Hin]; [rewrite viewer_eqb_refl in E; discriminate|].
    eapply perm_trans; [apply perm_skip, IH, Hin|apply perm_swap].
Qed.

(** Where no [sendall] raises, the pass walks the whole list. *)
Lemma for_iclient_all_well (sendall : viewer -> bool) (fuel : nat) :
  forall (i : nat) (l d c : list viewer),
    (forall v, In v l -> sendall v = true) ->
    (List.length l - i <= fuel)%nat ->
    for_iclient fuel sendall i {| registry := l; delivered := d; closed := c |}
    = Some {| registry := l; delivered := d ++ skipn i l; closed := c |}.
Proof.
  induction fuel as [|fuel IH]; intros i l d c Hwell Hfuel.
  - cbn. destruct (nth_error l i) eqn:E.
    + assert (i < List.length l)%nat by (apply nth_error_Some; congruence). lia.
    + rewrite (skipn_nth_error_none l i E), app_nil_r. reflexivity.
  - cbn. destruct (nth_error l i) as [v|] eqn:E.
    + rewrite (Hwell v (nth_error_In l i E)).
      rewrite (IH (S i) l (d ++ [v]) c Hwell).
      * rewrite (skipn_nth_error l i v E), <- app_assoc. reflexivity.
      * assert (i < List.length l)%nat by (apply nth_error_Some; congruence).
        lia.
    + rewrite (skipn_nth_error_none l i E), app_nil_r. reflexivity.
Qed.

(** X1.  When no channel raises, one pass sends the frame to every
    registered viewer, in registry order, closes none and leaves the
    registry as it was. *)
Theorem fan_out_reaches_everyone (sendall : viewer -> bool) (l : list viewer) :
  (forall v, In v l -> sendall v = true) ->
  fan_out sendall l = Some {| registry := l; delivered := l; closed := [] |}.
Proof.
  intros Hwell. unfold fan_out.
  rewrite (for_iclient_all_well sendall _ 0 l [] [] Hwell) by lia.
  reflexivity.
Qed.

Lemma fan_out_reaches_everyone_witness :
  fan_out Sample.all_well [Sample.viewer1; Sample.viewer2]
  = Some {| registry := [Sample.viewer1; Sample.viewer2];
            delivered := [Sample.viewer1; Sample.viewer2];
            closed := [] |}.
Proof.
  apply (fan_out_reaches_everyone Sample.all_well
           [Sample.viewer1; Sample.viewer2]).
  intros v _. reflexivity.
Defined.

(** Registered and closed viewers together stay the same through a
    pass. *)
Lemma for_iclient_conserves (sendall : viewer -> bool) (fuel : nat) :
  forall (i : nat) (p p' : pass),
    for_iclient fuel sendall i p = Some p' ->
    Permutation (registry p ++ closed p) (registry p' ++ closed p').
Proof.
  induction fuel as [|fuel IH]; intros i p p' Hrun.
  - cbn in Hrun. destruct (nth_error (registry p) i); [discriminate|].
    injection Hrun as <-. apply Permutation_refl.
  - cbn in Hrun. destruct (nth_error (registry p) i) as [v|] eqn:E.
    2:{ injection Hrun as <-. apply Permutation_refl. }
    destruct (sendall v).
    + apply IH in Hrun. exact Hrun.
    + apply IH in Hrun. cbn [registry closed] in Hrun.
      eapply perm_trans; [|exact Hrun].
      pose proof (list_remove_perm v (registry p) (nth_error_In _ _ E)) as Hp.
      eapply perm_trans; [apply Permutation_app_tail, Hp|].
      cbn. rewrite app_assoc.
      apply Permutation_cons_app. rewrite app_nil_r. apply Permutation_refl.
Qed.

(** X2.  A pass neither loses nor duplicates a viewer: the viewers still
    registered after it, together with the viewers it closed, are the
    viewers registered before, each as often as before; every failed send
    takes exactly one entry off the registry. *)
Theorem fan_out_conserves_viewers (sendall : viewer -> bool) (l : list viewer) :
  exists r,
    fan_out sendall l = Some r
    /\ Permutation l (registry r ++ closed r)
    /\ (List.length (registry r) + List.length (closed r) = List.length l)%nat.
Proof.
  destruct (fan_out_total sendall l) as [r Hrun]. exists r.
  split; [exact Hrun|].
  apply for_iclient_conserves in Hrun. cbn in Hrun. rewrite app_nil_r in Hrun.
  split; [exact Hrun|].
  apply Permutation_length in Hrun. rewrite length_app in Hrun. lia.
Qed.

(** Whom a pass sends to, whom it closes, whom it keeps. *)
Lemma for_iclient_sound (sendall : viewer -> bool) (fuel : nat) :
  forall (i : nat) (p p' : pass),
    for_iclient fuel sendall i p = Some p' ->
    forall x,
      (In x (delivered p') ->
       In x (delivered p) \/ In x (registry p) /\ sendall x = true)
      /\ (In x (closed p') ->
          In x (closed p) \/ In x (registry p) /\ sendall x = false)
      /\ (In x (registry p) -> sendall x = true -> In x (registry p')).
Proof.
  induction fuel as [|fuel IH]; intros i p p' Hrun x.
  - cbn in Hrun. destruct (nth_error (registry p) i); [discriminate|].
    injection Hrun as <-. auto.
  - cbn in Hrun. destruct (nth_error (registry p) i) as [v|] eqn:E.
    2:{ injection Hrun as <-. auto. }
    pose proof (nth_error_In _ _ E) as Hv.
    destruct (sendall v) eqn:Es.
    + destruct (IH _ _ _ Hrun x) as (Hd & Hc & Hk).
      cbn [registry delivered closed] in Hd, Hc, Hk. repeat split.
      * intros Hx. destruct (Hd Hx) as [H|H]; [|now right].
        apply in_app_or in H. destruct H as [H|[<-|[]]]; auto.
      * exact Hc.
      * exact Hk.
    + destruct (IH _ _ _ Hrun x) as (Hd & Hc & Hk).
      cbn [registry delivered closed] in Hd, Hc, Hk. repeat split.
      * intros Hx. destruct (Hd Hx) as [H|[H Hs]]; [now left|].
        right. split; [now apply in_of_list_remove in H|exact Hs].
      * intros Hx. destruct (Hc Hx) as [H|[H Hs]].
        -- apply in_app_or in H. destruct H as [H|[<-|[]]]; auto.
        -- right. split; [now apply in_of_list_remove in H|exact Hs].
      * intros Hx Hs. apply Hk; [|exact Hs].
        apply in_list_remove; [exact Hx|]. intros ->. congruence.
Qed.

(** X3.  A pass sends only to registered viewers whose [sendall] returns
    and closes only registered viewers whose [sendall] raises; a viewer
    whose [sendall] returns is never taken off the registry. *)
Theorem fan_out_closes_only_failures (sendall : viewer -> bool)
    (l : list viewer) :
  exists r,
    fan_out sendall l = Some r
    /\ (forall x, In x (delivered r) -> In x l /\ sendall x = true)
    /\ (forall x, In x (closed r) -> In x l /\ sendall x = false)
    /\ (forall x, In x l -> sendall x = true -> In x (registry r)).
Proof.
  destruct (fan_out_total sendall l) as [r Hrun]. exists r.
  split; [exact Hrun|].
  pose proof (for_iclient_sound sendall _ _ _ _ Hrun) as H. cbn in H.
  repeat split.
  - destruct (H x) as (Hd & _ & _). destruct (Hd H0) as [[]|[? ?]]; assumption.
  - destruct (H x) as (Hd & _ & _). destruct (Hd H0) as [[]|[? ?]]; assumption.
  - destruct (H x) as (_ & Hc & _). destruct (Hc H0) as [[]|[? ?]]; assumption.
  - destruct (H x) as (_ & Hc & _). destruct (Hc H0) as [[]|[? ?]]; assumption.
  - intros x Hx Hs. destruct (H x) as (_ & _ & Hk). auto.
Qed.

Lemma length_list_remove_in (v : viewer) (l : list viewer) :
  In v l -> List.length l = S (List.length (list_remove v l)).
Proof.
  intros H. apply list_remove_perm, Permutation_length in H. exact H.
Qed.

(** Where every [sendall] raises, the index goes up by one and the list
    down by one at each turn: they meet half-way. *)
Lemma for_iclient_all_broken (sendall : viewer -> bool) (fuel : nat) :
  (forall v, sendall v = false) ->
  forall (i : nat) (p p' : pass),
    for_iclient fuel sendall i p = Some p' ->
    (i <= S (List.length (registry p)))%nat ->
    List.length (registry p') = ((List.length (registry p) + i) / 2)%nat.
Proof.
  intros Hbroken. induction fuel as [|fuel IH]; intros i p p' Hrun Hi.
  - cbn in Hrun. destruct (nth_error (registry p) i) eqn:E; [discriminate|].
    injection Hrun as <-. apply nth_error_None in E.
    assert (i = List.length (registry p) \/ i = S (List.length (registry p)))
      as [->| ->] by lia.
    + apply Nat.div_unique with (r := 0%nat); lia.
    + apply Nat.div_unique with (r := 1%nat); lia.
  - cbn in Hrun. destruct (nth_error (registry p) i) as [v|] eqn:E.
    + rewrite (Hbroken v) in Hrun.
      pose proof (length_list_remove_in v _ (nth_error_In _ _ E)) as Hlen.
      assert (i < List.length (registry p))%nat
        by (apply nth_error_Some; congruence).
      apply IH in Hrun; cbn [registry] in *; [|lia].
      rewrite Hrun. f_equal. lia.
    + injection Hrun as <-. apply nth_error_None in E.
      assert (i = List.length (registry p) \/ i = S (List.length (registry p)))
        as [->| ->] by lia.
      * apply Nat.div_unique with (r := 0%nat); lia.
      * apply Nat.div_unique with (r := 1%nat); lia.
Qed.

(** X4.  When every channel raises, one pass closes only every other
    viewer: of [n] registered viewers, [n / 2] (rounded down) are still
    registered after it, none of them having been sent to or closed. *)
Theorem fan_out_all_raise_halves (sendall : viewer -> bool) (l : list viewer) :
  (forall v, sendall v = false) ->
  exists r,
    fan_out sendall l = Some r
    /\ List.length (registry r) = (List.length l / 2)%nat
    /\ List.length (closed r) = (List.length l - List.length l / 2)%nat
    /\ delivered r = [].
Proof.
  intros Hbroken.
  destruct (fan_out_total sendall l) as [r Hrun]. exists r.
  split; [exact Hrun|].
  pose proof (for_iclient_all_broken sendall _ Hbroken _ _ _ Hrun) as Hlen.
  cbn [registry] in Hlen. rewrite Nat.add_0_r in Hlen.
  specialize (Hlen ltac:(lia)).
  pose proof (for_iclient_conserves sendall _ _ _ _ Hrun) as Hperm.
  cbn in Hperm. rewrite app_nil_r in Hperm.
  apply Permutation_length in Hperm. rewrite length_app in Hperm.
  pose proof (for_iclient_sound sendall _ _ _ _ Hrun) as Hs. cbn in Hs.
  repeat split.
  - exact Hlen.
  - lia.
  - destruct (delivered r) as [|x d] eqn:Ed; [reflexivity|].
    destruct (Hs x) as (Hd & _ & _).
    destruct (Hd (or_introl eq_refl)) as [[]|[_ Hx]].
    rewrite Hbroken in Hx. discriminate.
Qed.

Lemma fan_out_all_raise_halves_witness :
  exists r,
    fan_out Sample.all_broken [Sample.viewer1; Sample.viewer2; Sample.viewer3]
      = Some r
    /\ List.length (registry r) = (3 / 2)%nat
    /\ List.length (closed r) = (3 - 3 / 2)%nat
    /\ delivered r = [].
Proof.
  apply (fan_out_all_raise_halves Sample.all_broken
           [Sample.viewer1; Sample.viewer2; Sample.viewer3]).
  intros v. reflexivity.
Defined.

End FanOutMore.

(** ** More on attaches and broadcaster turns *)

Module SessionMore.
Import Protocol Session Derived.

(** X5.  One viewer whose channel takes the frame is enough to keep the
    pipeline running: the broadcaster turn does not leave the loop, leaves
    [running] and [first] as they are, and that viewer stays registered. *)
Theorem healthy_viewer_keeps_pipeline (p : Protocol.t)
    (sendall : viewer -> bool) (v : viewer) :
  In v (listclient p) -> sendall v = true ->
  exists p' r,
    _handle_client_turn p sendall = Some (p', r, false)
    /\ In v (listclient p')
    /\ running p' = running p
    /\ first p' = first p.
Proof.
  intros Hin Hs. unfold _handle_client_turn.
  destruct (FanOutFacts.fan_out_total sendall (listclient p)) as [r Hrun].
  rewrite Hrun.
  pose proof (FanOutMore.for_iclient_sound sendall _ _ _ _ Hrun v) as (_ & _ & Hk).
  cbn in Hk. specialize (Hk Hin Hs).
  destruct (registry r) as [|w l] eqn:E; [destruct Hk|].
  eexists _, _. split; [reflexivity|]. cbn. auto.
Qed.

Lemma healthy_viewer_keeps_pipeline_witness :
  exists p' r,
    _handle_client_turn
      {| listclient := [Sample.viewer1; Sample.viewer2];
         first := false; running := true |} Sample.viewer1_broken
    = Some (p', r, false)
    /\ In Sample.viewer2 (listclient p')
    /\ running p' = true
    /\ first p' = false.
Proof.
  apply (healthy_viewer_keeps_pipeline
           {| listclient := [Sample.viewer1; Sample.viewer2];
              first := false; running := true |}
           Sample.viewer1_broken Sample.viewer2).
  - right. left. reflexivity.
  - reflexivity.
Defined.

(** X6.  A handshake that times out ([open_new_subchannel] gives no id or
    no channel) takes no action: the registry and the flags stay as they
    are, no thread is started, and the session does not change. *)
Theorem handshake_timeout_takes_no_action (s : Session.t) (client : nat)
    (id : option Z) (channel : option nat) :
  id = None \/ channel = None ->
  handle_new_client (proto s) client (Opened id channel) = (proto s, [])
  /\ step s (Attach client (Opened id channel)) = s.
Proof.
  intros H.
  assert (E : handle_new_client (proto s) client (Opened id channel)
              = (proto s, [])).
  { unfold handle_new_client.
    destruct H as [-> | ->]; [reflexivity|destruct id; reflexivity]. }
  split; [exact E|]. cbn [step]. rewrite E. destruct s. cbn.
  rewrite !Nat.add_0_r. reflexivity.
Qed.

Lemma handshake_timeout_takes_no_action_witness :
  handle_new_client (proto init) 7 (Opened None None) = (proto init, [])
  /\ step init (Attach 7 (Opened None None)) = init.
Proof.
  apply (handshake_timeout_takes_no_action init 7 None None).
  left. reflexivity.
Defined.

(** A broadcaster turn registers nobody. *)
Lemma turn_registers_nobody (p p' : Protocol.t) (sendall : viewer -> bool)
    (r : pass) (gone : bool) (v : viewer) :
  _handle_client_turn p sendall = Some (p', r, gone) ->
  In v (listclient p') -> In v (listclient p).
Proof.
  unfold _handle_client_turn.
  destruct (fan_out sendall (listclient p)) as [r'|] eqn:Hrun; [|discriminate].
  apply FanOutMore.for_iclient_conserves in Hrun. cbn in Hrun.
  rewrite app_nil_r in Hrun.
  destruct (registry r') as [|w l] eqn:E; intros [= <- <- <-]; cbn.
  - intros [].
  - intros Hin. apply (Permutation_in v (Permutation_sym Hrun)).
    apply in_or_app. now left.
Qed.

Lemma run_registry_attached (tr : list event) :
  forall (s : Session.t) (base : list viewer),
    (forall v, In v (listclient (proto s)) -> In v base) ->
    forall v, In v (listclient (proto (run s tr))) ->
              In v (base ++ attached tr).
Proof.
  induction tr as [|e tr IH]; intros s base Hbase v Hv.
  - cbn in *. rewrite app_nil_r. auto.
  - cbn [run fold_left] in Hv. fold (run (step s e) tr) in Hv.
    destruct e as [client src|sendall].
    + assert (Hcases :
        (exists id channel,
            (src = Direct id channel \/ src = Opened (Some id) (Some channel))
            /\ listclient (proto (step s (Attach client src)))
               = listclient (proto s)
                 ++ [{| v_client := client; v_id := id; v_channel := channel |}]
            /\ attached (Attach client src :: tr)
               = {| v_client := client; v_id := id; v_channel := channel |}
                 :: attached tr)
        \/ (listclient (proto (step s (Attach client src)))
            = listclient (proto s)
            /\ attached (Attach client src :: tr) = attached tr)).
      { cbn [step]. unfold handle_new_client.
        destruct src as [id channel|[id|] [channel|]]; cbn [attached];
          try (right; split; reflexivity);
          left; exists id, channel;
          (split; [auto|]); destruct (first (proto s)); cbn; auto. }
      destruct Hcases as [(id & channel & _ & Hl & Ha)|[Hl Ha]].
      * rewrite Ha.
        specialize (IH (step s (Attach client src))
                      (base ++ [{| v_client := client; v_id := id;
                                   v_channel := channel |}])).
        rewrite <- app_assoc in IH. apply IH; [|exact Hv].
        intros x Hx. rewrite Hl in Hx. apply in_app_or in Hx.
        apply in_or_app. destruct Hx as [Hx|Hx]; auto.
      * rewrite Ha. apply (IH (step s (Attach client src)) base); [|exact Hv].
        intros x Hx. rewrite Hl in Hx. auto.
    + cbn [attached]. apply (IH (step s (Frame sendall)) base); [|exact Hv].
      intros x Hx. apply Hbase. cbn [step] in Hx.
      destruct (running (proto s) && negb (Nat.eqb (broadcasters_alive s) 0));
        [|exact Hx].
      destruct (_handle_client_turn (proto s) sendall) as [[[p' r] gone]|] eqn:Et;
        [|exact Hx].
      cbn in Hx. exact (turn_registers_nobody _ _ _ _ _ _ Et Hx).
Qed.

(** X7.  The registry only ever holds viewers that [handle_new_client]
    put there: after any sequence of attaches and broadcaster turns, every
    registered viewer is one of the attached viewers. *)
Theorem registry_holds_attached_viewers (tr : list event) (v : viewer) :
  In v (listclient (proto (run init tr))) -> In v (attached tr).
Proof.
  intros H. apply (run_registry_attached tr init [] (fun _ F => F) v H).
Qed.

Lemma registry_holds_attached_viewers_witness :
  In Sample.viewer3 (attached Sample.scenario).
Proof.
  apply (registry_holds_attached_viewers Sample.scenario Sample.viewer3).
  left. reflexivity.
Defined.

End SessionMore.

(** ** Reading a stream of length-prefixed messages *)

Module StreamFacts.
Import Socket ReceiveExact CommandChannel Derived.
Import ReceiveExactFacts.

(** What a successful read has taken is the front of what was incoming,
    and the rest is still to come. *)
Lemma receive_loop_takes_front (fuel : nat) :
  forall (n : Z) (data d : bytes) (s s' : Socket.t),
    receive_loop fuel n data s = Some (Ok (Some d), s') ->
    exists taken,
      d = data ++ taken
      /\ incoming s = taken ++ incoming s'
      /\ (error_free s = true -> error_free s' = true).
Proof.
  induction fuel as [|fuel IH]; intros n data d s s' Hrun.
  - cbn in Hrun. destruct (len data <? n); [discriminate|].
    injection Hrun as <- <-. exists []. rewrite app_nil_r. auto.
  - cbn [receive_loop] in Hrun.
    destruct (Z.ltb_spec (len data) n) as [Hlt|Hge].
    2:{ injection Hrun as <- <-. exists []. rewrite app_nil_r. auto. }
    destruct s as [|[bs|] s0]; cbn [recv] in Hrun; try discriminate.
    destruct (Z.leb_spec (len bs) (n - len data)) as [Hfit|Hbig].
    + destruct bs as [|b bs']; [discriminate|].
      apply IH in Hrun. destruct Hrun as (taken & -> & Hinc & Herr).
      exists ((b :: bs') ++ taken). rewrite <- !app_assoc.
      split; [reflexivity|]. split; [|exact Herr].
      change (incoming (Chunk (b :: bs') :: s0))
        with ((b :: bs') ++ incoming s0).
      rewrite Hinc. reflexivity.
    + destruct (firstn (Z.to_nat (n - len data)) bs) as [|p ps] eqn:Hfirst;
        [discriminate|].
      apply IH in Hrun. destruct Hrun as (taken & -> & Hinc & Herr).
      exists ((p :: ps) ++ taken). rewrite <- !app_assoc.
      split; [reflexivity|]. split; [|exact Herr].
      destruct (skipn (Z.to_nat (n - len data)) bs) as [|q qs] eqn:Hskip.
      { apply (f_equal (@List.length _)) in Hskip.
        rewrite length_skipn in Hskip. unfold len in *. cbn in Hskip. lia. }
      destruct bs as [|b bs'];
        [destruct (Z.to_nat (n - len data)); discriminate|].
      change (incoming (Chunk (b :: bs') :: s0))
        with ((b :: bs') ++ incoming s0).
      change (incoming (Chunk (q :: qs) :: s0))
        with ((q :: qs) ++ incoming s0) in Hinc.
      rewrite <- (firstn_skipn (Z.to_nat (n - len data)) (b :: bs')).
      rewrite Hfirst, Hskip, <- !app_assoc.
      cbn [app] in *. rewrite Hinc. reflexivity.
Qed.

(** With enough bytes on a sound transport the read returns them, and
    leaves the rest. *)
Lemma receive_exact_enough (s : Socket.t) (n : Z) :
  0 <= n -> error_free s = true -> n <= len (incoming s) ->
  exists s',
    _receive_exact s n = Some (Ok (Some (firstn (Z.to_nat n) (incoming s))), s')
    /\ incoming s' = skipn (Z.to_nat n) (incoming s)
    /\ error_free s' = true.
Proof.
  intros Hn Herr Hlen. unfold _receive_exact.
  destruct (receive_loop_spec (Z.to_nat n) n [] s) as (r & s' & Hr & Hspec).
  { unfold len. cbn. lia. }
  { unfold len. cbn. lia. }
  destruct r as [[d|]|e].
  - destruct Hspec as [_ Hd]. cbn in Hd.
    rewrite Z.sub_0_r in Hd.
    destruct (receive_loop_takes_front _ _ _ _ _ _ Hr)
      as (taken & Ht & Hinc & Herr').
    cbn in Ht. subst taken. exists s'. rewrite Hr, Hd.
    split; [reflexivity|]. split; [|auto].
    rewrite Hd in Hinc.
    rewrite <- (firstn_skipn (Z.to_nat n) (incoming s)) in Hinc at 1.
    apply app_inv_head in Hinc. auto.
  - unfold len in Hspec at 1. lia.
  - congruence.
Qed.

(** With too few bytes before the peer closes, the read returns [None]. *)
Lemma receive_exact_short (s : Socket.t) (n : Z) :
  0 <= n -> error_free s = true -> len (incoming s) < n ->
  exists s', _receive_exact s n = Some (Ok None, s').
Proof.
  intros Hn Herr Hlen. unfold _receive_exact.
  destruct (receive_loop_spec (Z.to_nat n) n [] s) as (r & s' & Hr & Hspec).
  { unfold len. cbn. lia. }
  { unfold len. cbn. lia. }
  destruct r as [[d|]|e].
  - destruct Hspec as [Hd1 Hd2]. cbn in Hd2. exfalso.
    rewrite Hd2 in Hd1. unfold len in *. rewrite length_firstn in Hd1. lia.
  - eauto.
  - congruence.
Qed.

(** X8.  Reads compose: on a sound transport that brings at least
    [n + m] bytes, in whatever chunks, reading [n] bytes and then [m]
    bytes returns the first [n] bytes and the [m] bytes after them, and
    leaves everything behind them to be read. *)
Theorem consecutive_reads_split_the_stream (s : Socket.t) (n m : Z) :
  0 <= n -> 0 <= m -> error_free s = true -> n + m <= len (incoming s) ->
  exists s1 s2,
    _receive_exact s n
      = Some (Ok (Some (firstn (Z.to_nat n) (incoming s))), s1)
    /\ _receive_exact s1 m
       = Some (Ok (Some (firstn (Z.to_nat m)
                           (skipn (Z.to_nat n) (incoming s)))), s2)
    /\ incoming s2 = skipn (Z.to_nat (n + m)) (incoming s).
Proof.
  intros Hn Hm Herr Hlen.
  destruct (receive_exact_enough s n Hn Herr ltac:(lia)) as (s1 & H1 & Hi1 & He1).
  assert (Hlen1 : m <= len (incoming s1)).
  { rewrite Hi1. unfold len in *. rewrite length_skipn. lia. }
  destruct (receive_exact_enough s1 m Hm He1 Hlen1) as (s2 & H2 & Hi2 & _).
  exists s1, s2. rewrite Hi1 in H2, Hi2. repeat split; [exact H1|exact H2|].
  rewrite Hi2, skipn_skipn. f_equal. lia.
Qed.

Lemma consecutive_reads_split_the_stream_witness :
  exists s1 s2,
    _receive_exact Sample.fragmented 2
      = Some (Ok (Some (firstn (Z.to_nat 2) (incoming Sample.fragmented))), s1)
    /\ _receive_exact s1 3
       = Some (Ok (Some (firstn (Z.to_nat 3)
                           (skipn (Z.to_nat 2) (incoming Sample.fragmented)))),
               s2)
    /\ incoming s2 = skipn (Z.to_nat (2 + 3)) (incoming Sample.fragmented).
Proof.
  apply (consecutive_reads_split_the_stream Sample.fragmented 2 3);
    [lia | lia | reflexivity | vm_compute; discriminate].
Defined.

Lemma unpack_I_of_u32be (h : bytes) (v : Z) :
  Spec.u32be h = Some v -> Struct.unpack_I h = Ok v.
Proof.
  destruct h as [|b3 [|b2 [|b1 [|b0 [|]]]]]; try discriminate.
  cbn. intros [= <-]. reflexivity.
Qed.

Lemma message_header (body : bytes) :
  len body < 2 ^ 32 ->
  exists b3 b2 b1 b0,
    Struct.pack_I (len body) = Ok [b3; b2; b1; b0]
    /\ Struct.unpack_I [b3; b2; b1; b0] = Ok (len body)
    /\ Sample.message body = [b3; b2; b1; b0] ++ body.
Proof.
  intros Hlen.
  destruct (Struct.pack_I (len body)) as [h|e] eqn:Hp.
  - destruct (WireFacts.pack_I_reads_back _ _ Hp)
      as (b3 & b2 & b1 & b0 & -> & Hu).
    exists b3, b2, b1, b0. split; [reflexivity|].
    split; [now apply unpack_I_of_u32be|].
    unfold Sample.message. rewrite Hp. reflexivity.
  - exfalso. unfold Struct.pack_I in Hp.
    destruct (Z.leb_spec 0 (len body)); [|unfold len in *; lia].
    destruct (Z.ltb_spec (len body) (2 ^ 32)); [discriminate|lia].
Qed.

Section Loop.
Variable loads : bytes -> result pyval.
Variable handle : pyval -> result (list RemoDesk.injection).

(** One turn of the loop on a stream that starts with a whole message. *)
Lemma loop_body_whole_message (s : Socket.t) (body rest : bytes) :
  len body < 2 ^ 32 -> error_free s = true ->
  incoming s = Sample.message body ++ rest ->
  exists s2,
    loop_body loads handle s
    = Some (of_result (decode_dispatch loads handle body), s2)
    /\ incoming s2 = rest
    /\ error_free s2 = true.
Proof.
  intros Hlen Herr Hinc.
  destruct (message_header body Hlen) as (b3 & b2 & b1 & b0 & _ & Hu & Hm).
  rewrite Hm in Hinc.
  destruct (receive_exact_enough s 4 ltac:(lia) Herr) as (s1 & H1 & Hi1 & He1).
  { rewrite Hinc. unfold len. rewrite !length_app. cbn. lia. }
  rewrite Hinc in H1, Hi1. change (Z.to_nat 4) with 4%nat in H1, Hi1.
  cbn [app firstn skipn] in H1, Hi1.
  destruct (receive_exact_enough s1 (len body) ltac:(unfold len; lia) He1)
    as (s2 & H2 & Hi2 & He2).
  { rewrite Hi1. unfold len. rewrite length_app. lia. }
  rewrite Hi1 in H2, Hi2.
  assert (Hnat : Z.to_nat (len body) = List.length body)
    by (unfold len; lia).
  rewrite Hnat in H2, Hi2.
  rewrite firstn_app, firstn_all, Nat.sub_diag in H2. cbn [firstn] in H2.
  rewrite app_nil_r in H2.
  rewrite skipn_app, skipn_all, Nat.sub_diag in Hi2. cbn in Hi2.
  exists s2. split; [|auto].
  unfold loop_body. rewrite H1, Hu, H2. reflexivity.
Qed.

(** X9.  Framing does not depend on how the transport cuts the bytes: if
    what arrives on a sound transport starts with the four-byte big-endian
    length of a body and the body, then, whatever the chunks, one turn of
    the loop hands exactly that body to [pickle.loads], dispatches the
    command if it is truthy, and leaves exactly the bytes after the
    message to be read. *)
Theorem message_read_whatever_the_chunks (s : Socket.t) (body rest : bytes)
    (h : bytes) :
  Struct.pack_I (len body) = Ok h -> error_free s = true ->
  incoming s = h ++ body ++ rest ->
  exists s2,
    loop_body loads handle s
    = Some (match decode_dispatch loads handle body with
            | Ok done => Next done
            | Raise e => inner_except e
            end, s2)
    /\ incoming s2 = rest.
Proof.
  intros Hp Herr Hinc.
  assert (Hlen : len body < 2 ^ 32).
  { unfold Struct.pack_I in Hp.
    destruct (Z.ltb_spec (len body) (2 ^ 32)); [assumption|].
    rewrite andb_false_r in Hp. discriminate. }
  destruct (loop_body_whole_message s body rest Hlen Herr) as (s2 & Hb & Hi & _).
  { unfold Sample.message. rewrite Hp, <- app_assoc. exact Hinc. }
  exists s2. split; [exact Hb|exact Hi].
Qed.

(** X10.  A message that unpickles to a falsy value ([None], [0], the
    empty string, the empty dict) is ignored: [handle_commands] is not
    called, nothing is logged, and the loop goes round again. *)
Theorem falsy_command_is_ignored (s : Socket.t) (body rest : bytes)
    (command : pyval) :
  len body < 2 ^ 32 -> error_free s = true ->
  incoming s = Sample.message body ++ rest ->
  loads body = Ok command -> PyVal.truthy command = false ->
  exists s2,
    loop_body loads handle s = Some (Next [], s2) /\ incoming s2 = rest.
Proof.
  intros Hlen Herr Hinc Hl Ht.
  destruct (loop_body_whole_message s body rest Hlen Herr Hinc)
    as (s2 & Hb & Hi & _).
  exists s2. split; [|exact Hi].
  rewrite Hb. unfold decode_dispatch. rewrite Hl. cbn [bind]. rewrite Ht.
  reflexivity.
Qed.

(** X11.  When the peer closes in the middle of a body, the body read
    returns [None], [pickle.loads(None)] raises [TypeError], and the loop
    ends with that error logged, whatever [pickle.loads] and the dispatch
    would do. *)
Theorem close_inside_body_is_logged (s : Socket.t) (h part : bytes)
    (n : Z) (fuel : nat) :
  Struct.pack_I n = Ok h -> error_free s = true ->
  incoming s = h ++ part -> len part < n ->
  exists s2,
    command_loop loads handle (S fuel) s
    = Some {| injected := []; ending := Logged TypeError; unread := s2 |}.
Proof.
  intros Hp Herr Hinc Hpart.
  destruct (WireFacts.pack_I_reads_back _ _ Hp) as (b3 & b2 & b1 & b0 & -> & Hu).
  apply unpack_I_of_u32be in Hu.
  destruct (receive_exact_enough s 4 ltac:(lia) Herr) as (s1 & H1 & Hi1 & He1).
  { rewrite Hinc. unfold len. rewrite !length_app. cbn. lia. }
  rewrite Hinc in H1, Hi1. change (Z.to_nat 4) with 4%nat in H1, Hi1.
  cbn [app firstn skipn] in H1, Hi1.
  destruct (CommandFacts.unpack_I_nonneg _ _ Hu) as [Hn _].
  destruct (receive_exact_short s1 n Hn He1) as (s2 & H2).
  { rewrite Hi1. exact Hpart. }
  exists s2. cbn [command_loop]. unfold loop_body. rewrite H1, Hu, H2.
  reflexivity.
Qed.

(** X12.  When the peer closes before a whole length prefix has arrived
    (no byte, or one to three bytes), the loop ends by [break]: nothing is
    dispatched and nothing is logged. *)
Theorem close_inside_prefix_ends_quietly (s : Socket.t) (fuel : nat) :
  error_free s = true -> len (incoming s) < 4 ->
  exists s1,
    command_loop loads handle (S fuel) s
    = Some {| injected := []; ending := Closed; unread := s1 |}.
Proof.
  intros Herr Hlen.
  destruct (receive_exact_short s 4 ltac:(lia) Herr Hlen) as (s1 & H1).
  exists s1. cbn [command_loop]. unfold loop_body. rewrite H1. reflexivity.
Qed.



(** X14.  Commands are dispatched in the order in which they arrive: on
    a sound transport that brings a sequence of whole messages and then
    closes, each of which unpickles and dispatches without an error,
    [_handle_client_commands] performs the injections of the first, then
    of the second, and so on, whatever the chunks, and ends by [break]. *)
Theorem commands_dispatched_in_order (bodies : list bytes) :
  forall s : Socket.t,
    error_free s = true ->
    incoming s = framed bodies ->
    Forall (fun body => len body < 2 ^ 32
                        /\ exists done,
                             decode_dispatch loads handle body = Ok done)
           bodies ->
    exists s',
      _handle_client_commands loads handle s
      = Some {| injected := injections_of loads handle bodies;
                ending := Closed; unread := s' |}.
Proof.
  unfold _handle_client_commands.
  assert (Hgen : forall (fuel : nat) (s : Socket.t),
    (pending s < fuel)%nat ->
    error_free s = true ->
    incoming s = framed bodies ->
    Forall (fun body => len body < 2 ^ 32
                        /\ exists done,
                             decode_dispatch loads handle body = Ok done)
           bodies ->
    exists s',
      command_loop loads handle fuel s
      = Some {| injected := injections_of loads handle bodies;
                ending := Closed; unread := s' |}).
  { induction bodies as [|body bodies IH]; intros fuel s Hfuel Herr Hinc Hall.
    - destruct fuel as [|fuel]; [lia|].
      destruct (receive_exact_short s 4 ltac:(lia) Herr) as (s1 & H1).
      { rewrite Hinc. unfold len. cbn. lia. }
      exists s1. cbn [command_loop]. unfold loop_body. rewrite H1.
      reflexivity.
    - destruct fuel as [|fuel]; [lia|].
      inversion Hall as [|? ? [Hlen (done & Hd)] Hall']; subst.
      destruct (loop_body_whole_message s body (framed bodies) Hlen Herr Hinc)
        as (s2 & Hb & Hi2 & He2).
      rewrite Hd in Hb. cbn [of_result] in Hb.
      destruct (CommandFacts.loop_body_total loads handle s)
        as (b & s0 & Hb0 & _ & Hlt).
      rewrite Hb in Hb0. injection Hb0 as <- <-.
      specialize (Hlt done eq_refl).
      destruct (IH fuel s2 ltac:(lia) He2 Hi2 Hall') as (s' & Hrun).
      exists s'. cbn [command_loop]. rewrite Hb, Hrun. cbn.
      unfold injections_of. cbn [flat_map]. rewrite Hd. reflexivity. }
  intros s. apply Hgen. lia.
Qed.

End Loop.

Lemma message_read_whatever_the_chunks_witness :
  exists s2,
    loop_body Sample.loads Sample.dispatch
      [Chunk [Byte.x00; Byte.x00]; Chunk [Byte.x00];
       Chunk [Byte.x01; Byte.x02; Byte.x0a]]
    = Some (match decode_dispatch Sample.loads Sample.dispatch [Byte.x02] with
            | Ok done => Next done
            | Raise e => inner_except e
            end, s2)
    /\ incoming s2 = [Byte.x0a].
Proof.
  apply (message_read_whatever_the_chunks Sample.loads Sample.dispatch
           [Chunk [Byte.x00; Byte.x00]; Chunk [Byte.x00];
            Chunk [Byte.x01; Byte.x02; Byte.x0a]]
           [Byte.x02] [Byte.x0a]
           [Byte.x00; Byte.x00; Byte.x00; Byte.x01]); reflexivity.
Defined.

Lemma falsy_command_is_ignored_witness :
  exists s2,
    loop_body loads_none handle_raising
      [Chunk (Sample.message [Byte.x05] ++ [Byte.x0a])]
    = Some (Next [], s2)
    /\ incoming s2 = [Byte.x0a].
Proof.
  apply (falsy_command_is_ignored loads_none handle_raising
           [Chunk (Sample.message [Byte.x05] ++ [Byte.x0a])]
           [Byte.x05] [Byte.x0a] PyNone);
    [vm_compute; reflexivity | reflexivity | reflexivity | reflexivity
    | reflexivity].
Defined.

Lemma close_inside_body_is_logged_witness :
  exists s2,
    command_loop Sample.loads Sample.dispatch (S 0)
      [Chunk [Byte.x00; Byte.x00; Byte.x00; Byte.x05; Byte.x01; Byte.x02]]
    = Some {| injected := []; ending := Logged TypeError; unread := s2 |}.
Proof.
  apply (close_inside_body_is_logged Sample.loads Sample.dispatch
           [Chunk [Byte.x00; Byte.x00; Byte.x00; Byte.x05; Byte.x01; Byte.x02]]
           [Byte.x00; Byte.x00; Byte.x00; Byte.x05] [Byte.x01; Byte.x02] 5 0);
    [reflexivity | reflexivity | reflexivity | vm_compute; reflexivity].
Defined.

Lemma close_inside_prefix_ends_quietly_witness :
  exists s1,
    command_loop Sample.loads Sample.dispatch (S 0)
      [Chunk [Byte.x00; Byte.x00]; Chunk [Byte.x00]]
    = Some {| injected := []; ending := Closed; unread := s1 |}.
Proof.
  apply (close_inside_prefix_ends_quietly Sample.loads Sample.dispatch
           [Chunk [Byte.x00; Byte.x00]; Chunk [Byte.x00]] 0);
    [reflexivity | vm_compute; reflexivity].
Defined.


Lemma commands_dispatched_in_order_witness :
  exists s',
    _handle_client_commands Sample.loads Sample.dispatch
      [Chunk (firstn 3 (framed [[Byte.x02]; [Byte.x01]]));
       Chunk (skipn 3 (framed [[Byte.x02]; [Byte.x01]]))]
    = Some {| injected := injections_of Sample.loads Sample.dispatch
                            [[Byte.x02]; [Byte.x01]];
              ending := Closed; unread := s' |}.
Proof.
  apply (commands_dispatched_in_order Sample.loads Sample.dispatch
           [[Byte.x02]; [Byte.x01]]).
  - reflexivity.
  - reflexivity.
  - repeat constructor; try (vm_compute; reflexivity);
      eexists; vm_compute; reflexivity.
Defined.

End StreamFacts.

(** ** More on the command dispatch *)

Module DispatchFacts.
Import RemoDesk.

Section Dispatch.
Context {frame : Type}.
Variable inject : injection -> result unit.
Variable st : @RemoDesk.t frame.


(** X16.  A command whose action is none of [move_mouse], [click_mouse]
    and [keyboard] is ignored: nothing is injected and nothing is
    raised, whatever its data. *)
Theorem unknown_action_is_ignored (items : list (string * pyval))
    (action data : pyval) :
  PyVal.lookup "action" items = Some action ->
  PyVal.lookup "data" items = Some data ->
  PyVal.eq_str action "move_mouse" = false ->
  PyVal.eq_str action "click_mouse" = false ->
  PyVal.eq_str action "keyboard" = false ->
  handle_commands inject st (PyDict items) = Ok [].
Proof.
  intros Ha Hd H1 H2 H3. unfold handle_commands. cbn [PyVal.subscript].
  rewrite Ha. cbn [bind]. rewrite Hd. cbn [bind]. rewrite H1, H2, H3.
  reflexivity.
Qed.

(** X17.  A click whose button is not 1, 2 or 3 is ignored: nothing is
    injected and nothing is raised, as long as the data carries a button
    and a state. *)
Theorem unknown_button_is_ignored (items : list (string * pyval))
    (data button state : pyval) :
  PyVal.lookup "action" items = Some (PyStr "click_mouse") ->
  PyVal.lookup "data" items = Some data ->
  PyVal.subscript data "button" = Ok button ->
  PyVal.subscript data "state" = Ok state ->
  PyVal.eq_int button 1 = false ->
  PyVal.eq_int button 2 = false ->
  PyVal.eq_int button 3 = false ->
  handle_commands inject st (PyDict items) = Ok [].
Proof.
  intros Ha Hd Hb Hs H1 H2 H3. unfold handle_commands. cbn [PyVal.subscript].
  rewrite Ha. cbn [bind]. rewrite Hd. cbn [bind].
  cbn [PyVal.eq_str String.eqb Ascii.eqb Bool.eqb].
  rewrite Hb. cbn [bind]. rewrite Hs. cbn [bind]. rewrite H1, H2, H3.
  reflexivity.
Qed.

(** X18.  A [move_mouse] command that arrives before the first screen
    capture ([screensize] still the empty tuple) raises [IndexError],
    whatever its coordinates: the pointer is not moved. *)
Theorem move_before_first_capture_raises (items : list (string * pyval))
    (data x y : pyval) :
  screensize st = [] ->
  PyVal.lookup "action" items = Some (PyStr "move_mouse") ->
  PyVal.lookup "data" items = Some data ->
  PyVal.subscript data "x" = Ok x ->
  PyVal.subscript data "y" = Ok y ->
  handle_commands inject st (PyDict items) = Raise IndexError.
Proof.
  intros Hsize Ha Hd Hx Hy. unfold handle_commands. cbn [PyVal.subscript].
  rewrite Ha. cbn [bind]. rewrite Hd. cbn [bind].
  cbn [PyVal.eq_str String.eqb Ascii.eqb Bool.eqb].
  rewrite Hx. cbn [bind]. rewrite Hy. cbn [bind].
  unfold _translate_coordinates. rewrite Hsize.
  destruct (resolution_truthy st); reflexivity.
Qed.

End Dispatch.


Lemma unknown_action_is_ignored_witness :
  handle_commands (Sample.inject_raising OSError)
    (Sample.desk "jpeg" None None)
    (PyDict [("action", PyStr "scroll"); ("data", PyNone)]%string) = Ok [].
Proof.
  apply (unknown_action_is_ignored (Sample.inject_raising OSError)
           (Sample.desk "jpeg" None None)
           [("action", PyStr "scroll"); ("data", PyNone)]%string
           (PyStr "scroll") PyNone); reflexivity.
Defined.

Lemma unknown_button_is_ignored_witness :
  handle_commands (Sample.inject_raising OSError)
    (Sample.desk "jpeg" None None) (Sample.click_command 4 "down") = Ok [].
Proof.
  apply (unknown_button_is_ignored (Sample.inject_raising OSError)
           (Sample.desk "jpeg" None None)
           [("action", PyStr "click_mouse");
            ("data", PyDict [("button", PyInt 4); ("state", PyStr "down")])]%string
           (PyDict [("button", PyInt 4); ("state", PyStr "down")]%string)
           (PyInt 4) (PyStr "down")); reflexivity.
Defined.

Lemma move_before_first_capture_raises_witness :
  handle_commands Sample.inject (Sample.desk "jpeg" None None)
    (Sample.move_command 10 20) = Raise IndexError.
Proof.
  apply (move_before_first_capture_raises Sample.inject
           (Sample.desk "jpeg" None None)
           [("action", PyStr "move_mouse");
            ("data", PyDict [("x", PyInt 10); ("y", PyInt 20)])]%string
           (PyDict [("x", PyInt 10); ("y", PyInt 20)]%string)
           (PyInt 10) (PyInt 20)); reflexivity.
Defined.

End DispatchFacts.

(** ** More on the capture loop *)

Module CaptureFacts.
Import RemoDesk Derived.

Section WithExternals.
Context {frame : Type} {ext : Externals frame}.
Implicit Type st : @RemoDesk.t frame.

Lemma settled_refl st : settled st st.
Proof. repeat split. Qed.

Lemma settled_trans st1 st2 st3 :
  settled st1 st2 -> settled st2 st3 -> settled st1 st3.
Proof.
  intros (Hq & Hc & Hf & Ht & Hz & Hr) (Hq' & Hc' & Hf' & Ht' & Hz' & Hr').
  repeat split; try congruence.
  intros r Hres. specialize (Hr r Hres).
  assert (resolution_truthy st2 = Some r) as H2
    by (unfold resolution_truthy in *; rewrite Hr; exact Hres).
  rewrite (Hr' r H2). exact Hr.
Qed.

Lemma detect_activity_settled st (f : frame) :
  settled st (snd (_detect_activity st f)).
Proof.
  unfold _detect_activity.
  destruct (threshold_truthy st); [|apply settled_refl].
  destruct (previous_frame st); [|repeat split].
  destruct (diff_count f f0 z); repeat split.
Qed.

Lemma capture_body_settled st (g : grab) :
  settled st (snd (capture_body st g)).
Proof.
  unfold capture_body.
  destruct (_capture_screen st g) as [img st1] eqn:Hcap.
  assert (H1 : settled st st1).
  { destruct g; cbn in Hcap; injection Hcap as <- <-; repeat split. }
  pose proof (detect_activity_settled st1 img) as H2.
  destruct (_detect_activity st1 img) as [[[|]|e] st2]; cbn [snd] in *;
    try exact (settled_trans _ _ _ H1 H2).
  unfold fit_resolution.
  destruct (resolution_truthy st2) as [res|] eqn:Hres.
  - destruct (cv2_resize_NEAREST img res); cbn;
      exact (settled_trans _ _ _ H1 H2).
  - cbn. apply (settled_trans _ _ _ H1). apply (settled_trans _ _ _ H2).
    repeat split. intros r Hr. congruence.
Qed.

Lemma capture_settled (turns : list turn) :
  forall st, settled st (snd (_capture st turns)).
Proof.
  induction turns as [|[|g] turns IH]; intros st;
    try apply settled_refl.
  cbn [_capture]. pose proof (capture_body_settled st g) as Hb.
  destruct (capture_body st g) as [[[w|]|e] st']; cbn [snd] in *.
  - specialize (IH st'). destruct (_capture st' turns) as [[put fin] st''].
    cbn [snd] in *. exact (settled_trans _ _ _ Hb IH).
  - exact (settled_trans _ _ _ Hb (IH st')).
  - exact Hb.
Qed.

(** X19.  The capture loop never writes the configuration (quality,
    compression, format, threshold, second compression), and a resolution
    that is set, by the configuration or by an earlier turn, is never
    changed again, whatever is captured and whatever fails. *)
Theorem capture_keeps_resolution st (turns : list turn) (r : list Z) :
  resolution_truthy st = Some r ->
  resolution (snd (_capture st turns)) = Some r
  /\ quality (snd (_capture st turns)) = quality st
  /\ compression (snd (_capture st turns)) = compression st
  /\ format (snd (_capture st turns)) = format st
  /\ threshold (snd (_capture st turns)) = threshold st
  /\ compress2 (snd (_capture st turns)) = compress2 st.
Proof.
  intros Hres.
  destruct (capture_settled turns st) as (Hq & Hc & Hf & Ht & Hz & Hr).
  repeat split; try assumption.
  rewrite (Hr r Hres). unfold resolution_truthy in Hres.
  destruct (resolution st) as [[|w l]|]; try discriminate.
  injection Hres as <-. reflexivity.
Qed.

(** X20.  Without a configured resolution and without an activity
    threshold, the size of the first screen captured becomes the
    resolution, and stays it for the rest of the run, also when later
    captures have another size and also when encoding fails. *)
Theorem first_capture_fixes_resolution st (img : frame) (w : Z)
    (size : list Z) (turns : list turn) :
  resolution_truthy st = None -> threshold_truthy st = None ->
  resolution (snd (_capture st (Active (Grabbed img (w :: size)) :: turns)))
  = Some (w :: size).
Proof.
  intros Hres Hthr. cbn [_capture].
  assert (Hbody : exists r,
            capture_body st (Grabbed img (w :: size))
            = (r, set_resolution (set_screensize st (w :: size)) (w :: size))).
  { unfold capture_body. cbn [_capture_screen]. unfold _detect_activity.
    assert (E : threshold_truthy (set_screensize st (w :: size)) = None)
      by exact Hthr.
    rewrite E. unfold fit_resolution.
    assert (E' : resolution_truthy (set_screensize st (w :: size)) = None)
      by exact Hres.
    rewrite E'. eauto. }
  destruct Hbody as (r & ->).
  assert (Hlock : forall turns',
            resolution
              (snd (_capture
                      (set_resolution (set_screensize st (w :: size)) (w :: size))
                      turns')) = Some (w :: size)).
  { intros turns'. destruct (capture_settled turns'
      (set_resolution (set_screensize st (w :: size)) (w :: size)))
      as (_ & _ & _ & _ & _ & Hr).
    rewrite (Hr (w :: size) eq_refl). reflexivity. }
  destruct r as [[data|]|e].
  - specialize (Hlock turns).
    destruct (_capture _ turns) as [[put fin] st'']. exact Hlock.
  - apply Hlock.
  - reflexivity.
Qed.

Lemma capture_body_header st (g : grab) (w : bytes) st' (rw rh : Z)
    (rest : list Z) :
  resolution st = Some (rw :: rh :: rest) ->
  capture_body st g = (Ok (Some w), st') ->
  exists header payload,
    w = header ++ payload /\ len header = 12
    /\ Spec.u32be (firstn 4 header) = Some (len payload)
    /\ Spec.u32be (firstn 4 (skipn 4 header)) = Some rw
    /\ Spec.u32be (skipn 8 header) = Some rh.
Proof.
  intros Hres Hbody.
  pose proof (capture_body_settled st g) as (_ & _ & _ & _ & _ & Hr).
  specialize (Hr (rw :: rh :: rest)).
  unfold resolution_truthy in Hr at 1. rewrite Hres in Hr.
  specialize (Hr eq_refl). rewrite Hbody in Hr. cbn [snd] in Hr.
  unfold capture_body in Hbody.
  destruct (_capture_screen st g) as [img st1].
  destruct (_detect_activity st1 img) as [[[|]|] st2]; try discriminate.
  destruct (fit_resolution st2 img) as [[image st3]|]; [|discriminate].
  destruct (_imagenc st3 image) as [data|]; [|discriminate].
  cbn [bind] in Hbody.
  destruct (wire_frame st3 data) as [w'|] eqn:Hw; [|discriminate].
  cbn [bind] in Hbody. injection Hbody as <- <-.
  apply WireFacts.wire_frame_fields in Hw.
  destruct Hw as (header & payload & width & height & rest' & Hres3 & Hw).
  rewrite Hr in Hres3. injection Hres3 as <- <- _.
  exists header, payload. exact Hw.
Qed.

(** X21.  With a resolution of two components configured, every frame
    of a run carries that width and that height in its header, whatever
    the size of the screen captured. *)
Theorem frames_carry_the_resolution st (turns : list turn) (rw rh : Z) :
  resolution st = Some [rw; rh] ->
  Forall (fun w => exists header payload,
              w = header ++ payload /\ len header = 12
              /\ Spec.u32be (firstn 4 header) = Some (len payload)
              /\ Spec.u32be (firstn 4 (skipn 4 header)) = Some rw
              /\ Spec.u32be (skipn 8 header) = Some rh)
         (frames_put (_capture st turns)).
Proof.
  revert st. induction turns as [|[|g] turns IH]; intros st Hres;
    try constructor.
  cbn [_capture].
  pose proof (capture_body_settled st g) as (_ & _ & _ & _ & _ & Hr).
  specialize (Hr [rw; rh]). unfold resolution_truthy in Hr at 1.
  rewrite Hres in Hr. specialize (Hr eq_refl).
  destruct (capture_body st g) as [[[w|]|e] st'] eqn:Hbody; cbn [snd] in Hr.
  - specialize (IH st' Hr).
    destruct (_capture st' turns) as [[put fin] st''].
    unfold frames_put in *. cbn [fst] in *.
    constructor; [|exact IH].
    exact (capture_body_header st g w st' rw rh [] Hres Hbody).
  - exact (IH st' Hr).
  - constructor.
Qed.

(** X22.  A failed screen grab ends the capture thread, unless it is the
    very first frame under an activity threshold: given that cv2 refuses
    the [b""] that [_capture_screen] returns then, the turn raises,
    nothing is put on the buffer and no later turn runs. *)
Theorem failed_grab_ends_capture st (turns : list turn) :
  (forall p, exists e, cv2_absdiff empty_bytes p = Raise e) ->
  (forall size, exists e, cv2_resize_NEAREST empty_bytes size = Raise e) ->
  (forall x q, exists e, cv2_imencode x empty_bytes q = Raise e) ->
  threshold_truthy st = None \/ previous_frame st <> None ->
  exists e st',
    _capture st (Active GrabFailed :: turns) = ([], Died e, st').
Proof.
  intros Habs Hres Henc Hcase. cbn [_capture].
  assert (Hbody : exists e st', capture_body st GrabFailed = (Raise e, st')).
  { unfold capture_body. cbn [_capture_screen]. unfold _detect_activity.
    destruct (threshold_truthy st) as [T|] eqn:Ht.
    - destruct Hcase as [Hc|Hc]; [discriminate|].
      destruct (previous_frame st) as [p|]; [|contradiction].
      unfold diff_count. destruct (Habs p) as (e & ->). cbn. eauto.
    - unfold fit_resolution.
      destruct (resolution_truthy st) as [r|].
      + destruct (Hres r) as (e & ->). cbn. eauto.
      + unfold _imagenc. cbn [format quality set_resolution].
        destruct (String.eqb (format st) "webp").
        { destruct (Henc ".webp"%string (quality st)) as (e & ->). cbn. eauto. }
        destruct (String.eqb (format st) "jpeg").
        { destruct (Henc ".jpeg"%string (quality st)) as (e & ->). cbn. eauto. }
        destruct (String.eqb (format st) "avif").
        { destruct (Henc ".avif"%string (quality st)) as (e & ->). cbn. eauto. }
        cbn. eauto. }
  destruct Hbody as (e & st' & ->). eauto.
Qed.

(** X23.  [_imagenc] returns exactly when the format is one of webp,
    jpeg and avif and the codec, called with the extension of that format
    and the configured quality, reports success; what it returns is the
    codec's buffer. *)
Theorem imagenc_returns_iff st (image : frame) (buffer : bytes) :
  _imagenc st image = Ok buffer <->
  exists e,
    (format st = "webp" /\ e = ".webp" \/ format st = "jpeg" /\ e = ".jpeg"
     \/ format st = "avif" /\ e = ".avif")%string
    /\ cv2_imencode e image (quality st) = Ok (true, buffer).
Proof.
  unfold _imagenc. split.
  - destruct (String.eqb_spec (format st) "webp") as [Hf|_].
    { destruct (cv2_imencode ".webp" image (quality st)) as [[[|] b]|] eqn:E;
        try discriminate.
      cbn. intros [= <-]. exists ".webp"%string. auto. }
    destruct (String.eqb_spec (format st) "jpeg") as [Hf|_].
    { destruct (cv2_imencode ".jpeg" image (quality st)) as [[[|] b]|] eqn:E;
        try discriminate.
      cbn. intros [= <-]. exists ".jpeg"%string. auto 6. }
    destruct (String.eqb_spec (format st) "avif") as [Hf|_].
    { destruct (cv2_imencode ".avif" image (quality st)) as [[[|] b]|] eqn:E;
        try discriminate.
      cbn. intros [= <-]. exists ".avif"%string. auto 6. }
    discriminate.
  - intros (e & [[Hf ->]|[[Hf ->]|[Hf ->]]] & Henc); rewrite Hf; cbn;
      rewrite Henc; reflexivity.
Qed.

End WithExternals.

Import Sample.

Lemma capture_keeps_resolution_witness :
  resolution
    (snd (_capture (Sample.desk "jpeg" (Some [4; 2]) None)
            [Active (Grabbed (Sample.white 2) [2; 1]);
             Active (Grabbed Sample.grey1 [1; 1])])) = Some [4; 2]
  /\ quality (snd (_capture (Sample.desk "jpeg" (Some [4; 2]) None)
            [Active (Grabbed (Sample.white 2) [2; 1]);
             Active (Grabbed Sample.grey1 [1; 1])]))
     = quality (Sample.desk "jpeg" (Some [4; 2]) None)
  /\ compression (snd (_capture (Sample.desk "jpeg" (Some [4; 2]) None)
            [Active (Grabbed (Sample.white 2) [2; 1]);
             Active (Grabbed Sample.grey1 [1; 1])]))
     = compression (Sample.desk "jpeg" (Some [4; 2]) None)
  /\ format (snd (_capture (Sample.desk "jpeg" (Some [4; 2]) None)
            [Active (Grabbed (Sample.white 2) [2; 1]);
             Active (Grabbed Sample.grey1 [1; 1])]))
     = format (Sample.desk "jpeg" (Some [4; 2]) None)
  /\ threshold (snd (_capture (Sample.desk "jpeg" (Some [4; 2]) None)
            [Active (Grabbed (Sample.white 2) [2; 1]);
             Active (Grabbed Sample.grey1 [1; 1])]))
     = threshold (Sample.desk "jpeg" (Some [4; 2]) None)
  /\ compress2 (snd (_capture (Sample.desk "jpeg" (Some [4; 2]) None)
            [Active (Grabbed (Sample.white 2) [2; 1]);
             Active (Grabbed Sample.grey1 [1; 1])]))
     = compress2 (Sample.desk "jpeg" (Some [4; 2]) None).
Proof.
  apply (capture_keeps_resolution (Sample.desk "jpeg" (Some [4; 2]) None)
           [Active (Grabbed (Sample.white 2) [2; 1]);
            Active (Grabbed Sample.grey1 [1; 1])] [4; 2]).
  reflexivity.
Defined.

Lemma first_capture_fixes_resolution_witness :
  resolution
    (snd (_capture (Sample.desk "jpeg" None None)
            (Active (Grabbed (Sample.white 2) (2 :: [1]))
             :: [Active (Grabbed (Sample.white 6) [3; 2])])))
  = Some (2 :: [1]).
Proof.
  apply (first_capture_fixes_resolution (Sample.desk "jpeg" None None)
           (Sample.white 2) 2 [1] [Active (Grabbed (Sample.white 6) [3; 2])]);
    reflexivity.
Defined.

Lemma frames_carry_the_resolution_witness :
  Forall (fun w => exists header payload,
              w = header ++ payload /\ len header = 12
              /\ Spec.u32be (firstn 4 header) = Some (len payload)
              /\ Spec.u32be (firstn 4 (skipn 4 header)) = Some 4
              /\ Spec.u32be (skipn 8 header) = Some 2)
         (frames_put (_capture (Sample.desk "jpeg" (Some [4; 2]) None)
                        [Active (Grabbed (Sample.white 2) [2; 1])])).
Proof.
  apply (frames_carry_the_resolution (Sample.desk "jpeg" (Some [4; 2]) None)
           [Active (Grabbed (Sample.white 2) [2; 1])] 4 2).
  reflexivity.
Defined.

Lemma failed_grab_ends_capture_witness :
  exists e st',
    _capture (Sample.desk "jpeg" None None)
      [Active GrabFailed; Active (Grabbed (Sample.white 2) [2; 1])]
    = ([], Died e, st').
Proof.
  apply (failed_grab_ends_capture (Sample.desk "jpeg" None None)
           [Active (Grabbed (Sample.white 2) [2; 1])]).
  - intros p. exists Cv2Error. reflexivity.
  - intros size. exists Cv2Error. reflexivity.
  - intros x q. exists Cv2Error. reflexivity.
  - left. reflexivity.
Defined.

End CaptureFacts.

(** ** More on the arithmetic *)

Module ArithmeticFacts.
Import RemoDesk Derived.

Lemma is_floor_quality_all :
  forallb is_floor_quality Decide.percentages = true.
Proof. vm_compute. reflexivity. Qed.

(** X24.  On the percentages 0..100 the float arithmetic of
    [_convert_quality] never shows: the brotli quality is [11 * q / 100]
    and the window size [10 + 14 * q / 100], both rounded down. *)
Theorem convert_quality_is_floor (q : Z) :
  0 <= q <= 100 ->
  _convert_quality q = Ok (11 * q / 100, 10 + 14 * q / 100).
Proof.
  intros Hq. pose proof is_floor_quality_all as Hall.
  rewrite forallb_forall in Hall.
  specialize (Hall q (QualityFacts.in_percentages q Hq)).
  unfold is_floor_quality, floor_quality in Hall. cbn [fst snd] in Hall.
  destruct (_convert_quality q) as [[b w]|]; [|discriminate].
  apply andb_prop in Hall. destruct Hall as [Hb Hw].
  apply Z.eqb_eq in Hb, Hw. subst. reflexivity.
Qed.

Lemma convert_quality_is_floor_witness :
  _convert_quality 57 = Ok (11 * 57 / 100, 10 + 14 * 57 / 100).
Proof. apply (convert_quality_is_floor 57). lia. Defined.

Section WithFrame.
Context {frame : Type}.
Implicit Type st : @RemoDesk.t frame.

(** X25.  With the native size known, a resolution whose width is 0
    makes [_translate_coordinates] raise [ZeroDivisionError] whatever the
    coordinates are, numbers or not: the scale factor is formed before the
    coordinate is looked at. *)
Theorem translate_zero_width_raises st (W H RH : Z) (x y : pyval) :
  screensize st = [W; H] -> resolution st = Some [0; RH] ->
  _translate_coordinates st x y = Raise ZeroDivisionError.
Proof.
  intros Hsize Hres.
  rewrite (TranslateFacts.translate_with_reference st x y W H 0 RH Hsize
             (or_introl Hres)).
  reflexivity.
Qed.

(** X26.  With the native size known and the scale factor formed, an
    [x] that is not a number ([None], a string, a dict) makes
    [_translate_coordinates] raise [TypeError]. *)
Theorem translate_non_number_raises st (W H RW RH : Z) (s : PyFloat.float)
    (x y : pyval) :
  screensize st = [W; H] -> resolution st = Some [RW; RH] ->
  PyFloat.truediv W RW = Ok s ->
  (forall z, x <> PyInt z) ->
  _translate_coordinates st x y = Raise TypeError.
Proof.
  intros Hsize Hres Hs Hx.
  rewrite (TranslateFacts.translate_with_reference st x y W H RW RH Hsize
             (or_introl Hres)).
  unfold scaled. rewrite Hs. cbn [bind].
  destruct x as [|z| |]; try reflexivity. exfalso. exact (Hx z eq_refl).
Qed.

End WithFrame.

Lemma translate_zero_width_raises_witness :
  _translate_coordinates
    (Sample.captured (Sample.desk "jpeg" (Some [0; 720]) None))
    (PyStr "left") (PyInt 3)
  = Raise ZeroDivisionError.
Proof.
  apply (translate_zero_width_raises
           (Sample.captured (Sample.desk "jpeg" (Some [0; 720]) None))
           1920 1080 720 (PyStr "left") (PyInt 3)); reflexivity.
Defined.

Lemma translate_non_number_raises_witness :
  _translate_coordinates
    (Sample.captured (Sample.desk "jpeg" (Some [1280; 720]) None))
    (PyStr "left") (PyInt 3)
  = Raise TypeError.
Proof.
  apply (translate_non_number_raises
           (Sample.captured (Sample.desk "jpeg" (Some [1280; 720]) None))
           1920 1080 1280 720
           (S754_finite false 6755399441055744 (-52))
           (PyStr "left") (PyInt 3));
    [reflexivity | reflexivity | vm_compute; reflexivity | discriminate].
Defined.

End ArithmeticFacts.

(** ** The command loop ends *)

Module TerminationFacts.
Import Socket CommandChannel.

Section Loop.
Variable loads : bytes -> result pyval.
Variable handle : pyval -> result (list RemoDesk.injection).

Lemma command_loop_leaves_no_more (fuel : nat) :
  forall (s : Socket.t) (r : ended),
    command_loop loads handle fuel s = Some r ->
    (pending (unread r) <= pending s)%nat.
Proof.
  induction fuel as [|fuel IH]; intros s r Hrun; [discriminate|].
  cbn [command_loop] in Hrun.
  destruct (CommandFacts.loop_body_total loads handle s)
    as (b & s' & Hb & Hle & _).
  rewrite Hb in Hrun. destruct b as [done| | |e].
  - destruct (command_loop loads handle fuel s') as [r'|] eqn:Hr';
      [|discriminate].
    injection Hrun as <-. cbn. specialize (IH s' r' Hr'). lia.
  - injection Hrun as <-. exact Hle.
  - injection Hrun as <-. exact Hle.
  - injection Hrun as <-. exact Hle.
Qed.

(** X27.  On every finite stream, whatever [pickle.loads] and the
    dispatch do, [_handle_client_commands] returns: each turn of the loop
    that goes round again has taken a length prefix off the stream.  What
    it leaves unread is part of what was pending. *)
Theorem command_loop_ends (s : Socket.t) :
  exists r,
    _handle_client_commands loads handle s = Some r
    /\ (pending (unread r) <= pending s)%nat.
Proof.
  unfold _handle_client_commands.
  destruct (CommandFacts.command_loop_total loads handle (S (pending s)) s)
    as [r Hr]; [lia|].
  exists r. split; [exact Hr|].
  exact (command_loop_leaves_no_more _ _ _ Hr).
Qed.

End Loop.
End TerminationFacts.
